(** * Two quads, two fragment shaders: a model of [code.c++]

    The program opens a GLFW window, builds two GL programs that share one
    vertex stage, uploads one static vertex/index buffer and then draws two
    quads per frame until the window is asked to close.

    The development has four layers.
    - The [float] of the host and of the shaders: the binary32 format with
      rounding to the nearest number, ties to the even one.
    - The GLSL stages, read as functions on such numbers.
    - The libraries the program talks to (GLFW, glad, OpenGL), as a
      deterministic machine [step] driven by a [World] that fixes everything
      the program cannot decide: whether a window can be made, what the
      shader compiler answers, when the user closes the window, what the
      clock shows.
    - The program itself ([checkCompile], [checkLink], [main]) written in a
      state monad that issues library calls one after the other and records
      them.

    Conventions.  A GL name ([unsigned int]) is an [N], an [int] is a [Z].
    A [double] reading of the clock is a rational ([Q]).  A [float], on the
    host and in the shaders, is a [Binary32.float]: a literal of the source
    stands for the number of the format nearest to the decimal it spells,
    and every operation rounds its exact result.  Signed zeros are not
    told apart. *)

From Stdlib Require Import Ascii QArith Qminmax Lqa.
From stdpp Require Import gmap strings list.

Local Open Scope Z_scope.
Local Open Scope string_scope.
Local Open Scope list_scope.

(** ** The shader sources *)

(** The three raw string literals of the source, byte for byte: each starts
    with the line break that follows the opening delimiter and ends with the
    one before the closing delimiter. *)

Definition vertexShaderSource : string := "
#version 330 core
layout (location = 0) in vec3 aPos;
layout (location = 1) in vec2 aTexCoord;

out vec2 TexCoord;

void main()
{
    TexCoord = aTexCoord;
    gl_Position = vec4(aPos, 1.0);
}
".

Definition normalFragSource : string := "
#version 330 core
out vec4 FragColor;
in vec2 TexCoord;

void main()
{
    FragColor = vec4(0.8, 0.4, 0.2, 1.0); // Orange-ish
}
".

Definition waveFragSource : string := "
#version 330 core
out vec4 FragColor;
in vec2 TexCoord;
uniform float time;

void main()
{
    float wave = sin(TexCoord.x * 10.0 + time * 5.0) * 0.1;
    FragColor = vec4(0.2 + wave, 0.5, 1.0, 1.0); // bluish wavy effect
}
".

(** ** Single precision *)

(** The binary32 format: the finite numbers [m * 2^e] with [|m| < 2^24] and
    [-149 <= e <= 104], two infinities and NaN. *)
Module Binary32.
Local Open Scope Z_scope.

Inductive float :=
  | Finite (q : Q)
  | Infinity (negative : bool)
  | NaN.

(** The integer nearest to [num / den] for [0 < den], the even one of the
    two when it lies half way. *)
Definition nearest_even (num den : Z) : Z :=
  let a := num / den in
  match 2 * (num mod den) ?= den with
  | Lt => a
  | Eq => if Z.even a then a else a + 1
  | Gt => a + 1
  end.

(** What [nearest_even] computes. *)
Definition is_nearest_even (num den a : Z) : Prop :=
  (2 * a - 1) * den <= 2 * num <= (2 * a + 1) * den
  /\ (2 * num = (2 * a + 1) * den -> Z.even a = true)
  /\ (2 * num = (2 * a - 1) * den -> Z.even a = true).

(** [|q|] in units of [2^-149], the smallest positive number of the format,
    rounded down. *)
Definition magnitude (q : Q) : Z :=
  Z.abs (Qnum q) * 2 ^ 149 / Z.pos (Qden q).

(** The last place kept of a number is [2^(shift - 149)]: 24 significant
    bits, and never less than [2^-149]. *)
Definition shift (q : Q) : Z := Z.max 0 (Z.log2 (magnitude q) - 23).

(** [q] rounded to its last place, in units of [2^-149]. *)
Definition units (q : Q) : Z :=
  nearest_even (Qnum q * 2 ^ 149) (Z.pos (Qden q) * 2 ^ shift q)
  * 2 ^ shift q.

Definition of_units (u : Z) : Q := Qred (u # 2 ^ 149).

(** Rounding to the format: what a literal denotes, what an operation
    delivers and what the conversion from [double] does.  A result of
    [2^128] or more in magnitude is an infinity. *)
Definition round (q : Q) : float :=
  let u := units q in
  if 2 ^ 277 <=? Z.abs u then Infinity (u <? 0) else Finite (of_units u).

Definition negative (q : Q) : bool := Qnum q <? 0.

Definition mul (a b : float) : float :=
  match a, b with
  | NaN, _ | _, NaN => NaN
  | Finite p, Finite q => round (p * q)
  | Infinity s, Finite q | Finite q, Infinity s =>
      if Qnum q =? 0 then NaN else Infinity (xorb s (negative q))
  | Infinity s, Infinity t => Infinity (xorb s t)
  end.

Definition add (a b : float) : float :=
  match a, b with
  | NaN, _ | _, NaN => NaN
  | Finite p, Finite q => round (p + q)
  | Infinity s, Finite _ | Finite _, Infinity s => Infinity s
  | Infinity s, Infinity t => if Bool.eqb s t then Infinity s else NaN
  end.


(** A finite number of the format between two rationals. *)
Definition between (lo hi : Q) (v : float) : Prop :=
  exists q, v = Finite q /\ (lo <= q)%Q /\ (q <= hi)%Q.
End Binary32.

(** ** The shader stages as functions *)

Module GLSL.
Import Binary32.

Record vec2 := Vec2 { x : float; y : float }.
Record vec3 := Vec3 { px : float; py : float; pz : float }.
Record vec4 := Vec4 { r : float; g : float; b : float; a : float }.

(** What the vertex stage hands on. *)
Record outputs := {
  TexCoord : vec2;
  gl_Position : vec4
}.

(** [main] of [vertexShaderSource]: the texture coordinate is handed on and
    the position is completed by [w = 1.0]. *)
Definition vertexShader_main (aPos : vec3) (aTexCoord : vec2) : outputs :=
  {| TexCoord := aTexCoord;
     gl_Position := Vec4 (px aPos) (py aPos) (pz aPos) (round 1.0) |}.

(** [main] of [normalFragSource]: the stage declares [TexCoord] and no
    uniform, and writes a constant to [FragColor]. *)
Definition normalFrag_main (TexCoord : vec2) : vec4 :=
  Vec4 (round 0.8) (round 0.4) (round 0.2) (round 1.0).

(** The built-in [sin].  GLSL leaves its precision to the implementation,
    so the stage is given the implementation's sine, a function on the
    finite numbers; its answer is delivered as a [float].  The sine of an
    infinity or of NaN is NaN. *)
Definition sin (sine : Q -> Q) (v : float) : float :=
  match v with
  | Finite q => round (sine q)
  | _ => NaN
  end.

(** The local [wave] of [waveFragSource]. *)
Definition wave (sine : Q -> Q) (time : float) (TexCoord : vec2) : float :=
  mul (sin sine (add (mul (x TexCoord) (round 10.0)) (mul time (round 5.0))))
    (round 0.1).

(** [main] of [waveFragSource], with the uniform [time] as a parameter. *)
Definition waveFrag_main (sine : Q -> Q) (time : float) (TexCoord : vec2)
  : vec4 :=
  Vec4 (add (round 0.2) (wave sine time TexCoord))
    (round 0.5) (round 1.0) (round 1.0).

(** A colour component that needs no clamping. *)
Definition unit_range (c : float) : Prop := between 0 1 c.
End GLSL.

Definition float : Type := Binary32.float.

(** ** The vocabulary of the libraries *)

Inductive ShaderType := GL_VERTEX_SHADER | GL_FRAGMENT_SHADER.
Inductive BufferTarget := GL_ARRAY_BUFFER | GL_ELEMENT_ARRAY_BUFFER.
Inductive BufferUsage := GL_STATIC_DRAW.
Inductive DataType := GL_FLOAT | GL_UNSIGNED_INT.
Inductive DrawMode := GL_TRIANGLES.
Inductive ClearMask := GL_COLOR_BUFFER_BIT.
Inductive ShaderParam := GL_COMPILE_STATUS.
Inductive ProgramParam := GL_LINK_STATUS.
Inductive WindowHint :=
  | GLFW_CONTEXT_VERSION_MAJOR
  | GLFW_CONTEXT_VERSION_MINOR
  | GLFW_OPENGL_PROFILE.
Inductive HintValue := HintInt (v : Z) | GLFW_OPENGL_CORE_PROFILE.

#[global] Instance ShaderType_eq_dec : EqDecision ShaderType.
Proof. solve_decision. Defined.
#[global] Instance BufferTarget_eq_dec : EqDecision BufferTarget.
Proof. solve_decision. Defined.

(** What a buffer holds: the array handed to [glBufferData]. *)
Inductive Data :=
  | NoData
  | Floats (fs : list float)
  | UInts (us : list N).

Definition sizeof_float : Z := 4.
Definition sizeof_unsigned_int : Z := 4.

(** [sizeof] of an array of the source. *)
Definition sizeof (d : Data) : Z :=
  match d with
  | NoData => 0
  | Floats fs => sizeof_float * Z.of_nat (length fs)
  | UInts us => sizeof_unsigned_int * Z.of_nat (length us)
  end.

(** One call into GLFW, glad or OpenGL, with the arguments the program
    passes.  Out-parameters ([&success], [infoLog], [&VAO]) are results, see
    [Ret]; the arrays of names given to [glDelete*] are lists. *)
Inductive Call :=
  | glfwInit
  | glfwWindowHint (hint : WindowHint) (value : HintValue)
  | glfwCreateWindow (width height : Z) (title : string)
  | glfwMakeContextCurrent
  | gladLoadGLLoader
  | glCreateShader (type : ShaderType)
  | glShaderSource (shader : N) (source : string)
  | glCompileShader (shader : N)
  | glGetShaderiv (shader : N) (pname : ShaderParam)
  | glGetShaderInfoLog (shader : N) (maxLength : nat)
  | glCreateProgram
  | glAttachShader (program shader : N)
  | glLinkProgram (program : N)
  | glGetProgramiv (program : N) (pname : ProgramParam)
  | glGetProgramInfoLog (program : N) (maxLength : nat)
  | glDeleteShader (shader : N)
  | glGenVertexArrays (n : N)
  | glGenBuffers (n : N)
  | glBindVertexArray (array : N)
  | glBindBuffer (target : BufferTarget) (buffer : N)
  | glBufferData (target : BufferTarget) (size : Z) (data : Data)
      (usage : BufferUsage)
  | glVertexAttribPointer (index : N) (size : Z) (type : DataType)
      (normalized : bool) (stride : Z) (pointer : Z)
  | glEnableVertexAttribArray (index : N)
  | glfwWindowShouldClose
  | glClearColor (red green blue alpha : float)
  | glClear (mask : ClearMask)
  | glUseProgram (program : N)
  | glDrawElements (mode : DrawMode) (count : nat) (type : DataType)
      (indices : Z)
  | glfwGetTime
  | glGetUniformLocation (program : N) (name : string)
  | glUniform1f (location : Z) (v0 : float)
  | glfwSwapBuffers
  | glfwPollEvents
  | glDeleteVertexArrays (arrays : list N)
  | glDeleteBuffers (buffers : list N)
  | glDeleteProgram (program : N)
  | glfwTerminate.

(** What a call hands back. *)
Inductive Ret :=
  | RVoid
  | RInt (z : Z)
  | RUInt (n : N)
  | RUInts (ns : list N)
  | RDouble (q : Q)
  | RPointer (nonnull : bool)
  | RText (s : string).

Definition ret_int (v : Ret) : Z := match v with RInt z => z | _ => 0 end.
Definition ret_uint (v : Ret) : N :=
  match v with RUInt n => n | RUInts (n :: _) => n | _ => 0%N end.
Definition ret_double (v : Ret) : Q := match v with RDouble q => q | _ => 0%Q end.
Definition ret_pointer (v : Ret) : bool :=
  match v with RPointer p => p | _ => false end.
Definition ret_text (v : Ret) : string := match v with RText s => s | _ => "" end.

(** ** The world outside the program *)

(** Everything the libraries answer that the program does not control.  The
    compiler and the linker are functions of what they are given; the window
    system is asked in sequence, so the close requests and the clock are
    indexed by the number of earlier [glfwPollEvents] and [glfwGetTime]
    calls; the sine is that of the GPU the shaders run on. *)
Record World := {
  window_ok : bool;
    (* glfwCreateWindow returns a window rather than NULL *)
  loader_ok : bool;
    (* gladLoadGLLoader resolves the entry points *)
  compile_ok : ShaderType -> string -> bool;
    (* GL_COMPILE_STATUS of a stage with this source *)
  compile_log : ShaderType -> string -> string;
    (* the compiler's whole diagnostic text *)
  link_ok : list (ShaderType * string * bool) -> bool;
    (* GL_LINK_STATUS given the attached stages: type, source, compiled *)
  link_log : list (ShaderType * string * bool) -> string;
  uniform_location : N -> string -> Z;
    (* where the linker put a uniform of a linked program *)
  clock : nat -> Q;
    (* seconds since glfwInit shown to the n-th glfwGetTime *)
  close_request : nat -> bool;
    (* whether a close request is pending at the n-th glfwPollEvents *)
  gpu_sin : Q -> Q
    (* what the built-in sin of the shading language answers *)
}.

(** ** The machine behind the calls *)

Inductive Kind := KShader | KProgram | KBuffer | KVertexArray.

#[global] Instance Kind_eq_dec : EqDecision Kind.
Proof. solve_decision. Defined.

(** A GPU object: its kind and its name. *)
Definition Obj : Type := Kind * N.

Record Shader := {
  sh_type : ShaderType;
  sh_source : string;
  sh_compiled : bool;
  sh_log : string
}.

Record Program := {
  pg_attached : list N;
  pg_linked : bool;
  pg_log : string;
  pg_fragment : option string;
    (* source of the fragment stage of the executable, once linked *)
  pg_uniforms : gmap Z float
    (* values written so far, by location; an absent one is 0 *)
}.

Record Buffer := {
  buf_size : Z;
  buf_data : Data
}.

Record Attrib := {
  at_size : Z;
  at_type : DataType;
  at_normalized : bool;
  at_stride : Z;
  at_offset : Z;
  at_buffer : N
}.

Record VertexArray := {
  va_attribs : gmap N Attrib;
  va_enabled : gset N;
  va_element_buffer : N
}.

(** What one [glDrawElements] is given: the program in use, its fragment
    stage and uniform values at that moment, and the indices it fetches from
    the element buffer of the bound vertex array. *)
Record Draw := {
  dr_program : N;
  dr_fragment : option string;
  dr_uniforms : gmap Z float;
  dr_array : N;
  dr_indices : option (list N)
}.

(** What reaches the framebuffer and the screen, in order. *)
Inductive Render :=
  | Cleared (color : float * float * float * float)
  | Drawn (d : Draw)
  | Presented.

Record Machine := {
  (* GLFW *)
  window : bool;
  close_flag : bool;
  polls : nat;
  clock_reads : nat;
  (* GL names: shaders and programs share one name space *)
  next_object : N;
  next_buffer : N;
  next_array : N;
  (* GL objects *)
  shaders : gmap N Shader;
  programs : gmap N Program;
  buffers : gmap N Buffer;
  arrays : gmap N VertexArray;
  (* GL bindings *)
  bound_array : N;
  bound_buffer : N;
  current_program : N;
  clear_color : float * float * float * float;
  (* output *)
  rendered : list Render;
  (* life cycle of the names: what glCreate* and glGen* handed out, what
     was handed to glDelete* while it named an object not yet deleted, and
     what was handed to glDelete* otherwise *)
  created : list Obj;
  released : list Obj;
  stale_deletes : list Obj;
  (* objects handed to glDelete* that are still there because the context
     still uses them: flagged for deletion *)
  flagged : list Obj
}.

(** A process that has called nothing yet: no window, no objects, names
    handed out from 1, nothing bound. *)
Definition boot : Machine := {|
  window := false; close_flag := false; polls := 0; clock_reads := 0;
  next_object := 1; next_buffer := 1; next_array := 1;
  shaders := ∅; programs := ∅; buffers := ∅; arrays := ∅;
  bound_array := 0; bound_buffer := 0; current_program := 0;
  clear_color := (Binary32.Finite 0, Binary32.Finite 0,
                  Binary32.Finite 0, Binary32.Finite 0);
  rendered := []; created := []; released := []; stale_deletes := [];
  flagged := []
|}.

Section Setters.
Context (m : Machine).

Definition set_window (v : bool) : Machine :=
  {| window := v; close_flag := close_flag m; polls := polls m;
     clock_reads := clock_reads m; next_object := next_object m;
     next_buffer := next_buffer m; next_array := next_array m;
     shaders := shaders m; programs := programs m; buffers := buffers m;
     arrays := arrays m; bound_array := bound_array m;
     bound_buffer := bound_buffer m; current_program := current_program m;
     clear_color := clear_color m; rendered := rendered m;
     created := created m; released := released m;
     stale_deletes := stale_deletes m; flagged := flagged m |}.

Definition set_events (flag : bool) (n : nat) : Machine :=
  {| window := window m; close_flag := flag; polls := n;
     clock_reads := clock_reads m; next_object := next_object m;
     next_buffer := next_buffer m; next_array := next_array m;
     shaders := shaders m; programs := programs m; buffers := buffers m;
     arrays := arrays m; bound_array := bound_array m;
     bound_buffer := bound_buffer m; current_program := current_program m;
     clear_color := clear_color m; rendered := rendered m;
     created := created m; released := released m;
     stale_deletes := stale_deletes m; flagged := flagged m |}.

Definition set_clock_reads (n : nat) : Machine :=
  {| window := window m; close_flag := close_flag m; polls := polls m;
     clock_reads := n; next_object := next_object m;
     next_buffer := next_buffer m; next_array := next_array m;
     shaders := shaders m; programs := programs m; buffers := buffers m;
     arrays := arrays m; bound_array := bound_array m;
     bound_buffer := bound_buffer m; current_program := current_program m;
     clear_color := clear_color m; rendered := rendered m;
     created := created m; released := released m;
     stale_deletes := stale_deletes m; flagged := flagged m |}.

Definition set_names (o b a : N) (cs : list Obj) : Machine :=
  {| window := window m; close_flag := close_flag m; polls := polls m;
     clock_reads := clock_reads m; next_object := o;
     next_buffer := b; next_array := a;
     shaders := shaders m; programs := programs m; buffers := buffers m;
     arrays := arrays m; bound_array := bound_array m;
     bound_buffer := bound_buffer m; current_program := current_program m;
     clear_color := clear_color m; rendered := rendered m;
     created := cs; released := released m;
     stale_deletes := stale_deletes m; flagged := flagged m |}.

Definition set_shaders (t : gmap N Shader) : Machine :=
  {| window := window m; close_flag := close_flag m; polls := polls m;
     clock_reads := clock_reads m; next_object := next_object m;
     next_buffer := next_buffer m; next_array := next_array m;
     shaders := t; programs := programs m; buffers := buffers m;
     arrays := arrays m; bound_array := bound_array m;
     bound_buffer := bound_buffer m; current_program := current_program m;
     clear_color := clear_color m; rendered := rendered m;
     created := created m; released := released m;
     stale_deletes := stale_deletes m; flagged := flagged m |}.

Definition set_programs (t : gmap N Program) : Machine :=
  {| window := window m; close_flag := close_flag m; polls := polls m;
     clock_reads := clock_reads m; next_object := next_object m;
     next_buffer := next_buffer m; next_array := next_array m;
     shaders := shaders m; programs := t; buffers := buffers m;
     arrays := arrays m; bound_array := bound_array m;
     bound_buffer := bound_buffer m; current_program := current_program m;
     clear_color := clear_color m; rendered := rendered m;
     created := created m; released := released m;
     stale_deletes := stale_deletes m; flagged := flagged m |}.

Definition set_buffers (t : gmap N Buffer) : Machine :=
  {| window := window m; close_flag := close_flag m; polls := polls m;
     clock_reads := clock_reads m; next_object := next_object m;
     next_buffer := next_buffer m; next_array := next_array m;
     shaders := shaders m; programs := programs m; buffers := t;
     arrays := arrays m; bound_array := bound_array m;
     bound_buffer := bound_buffer m; current_program := current_program m;
     clear_color := clear_color m; rendered := rendered m;
     created := created m; released := released m;
     stale_deletes := stale_deletes m; flagged := flagged m |}.

Definition set_arrays (t : gmap N VertexArray) : Machine :=
  {| window := window m; close_flag := close_flag m; polls := polls m;
     clock_reads := clock_reads m; next_object := next_object m;
     next_buffer := next_buffer m; next_array := next_array m;
     shaders := shaders m; programs := programs m; buffers := buffers m;
     arrays := t; bound_array := bound_array m;
     bound_buffer := bound_buffer m; current_program := current_program m;
     clear_color := clear_color m; rendered := rendered m;
     created := created m; released := released m;
     stale_deletes := stale_deletes m; flagged := flagged m |}.

Definition set_bindings (va buf prog : N) : Machine :=
  {| window := window m; close_flag := close_flag m; polls := polls m;
     clock_reads := clock_reads m; next_object := next_object m;
     next_buffer := next_buffer m; next_array := next_array m;
     shaders := shaders m; programs := programs m; buffers := buffers m;
     arrays := arrays m; bound_array := va;
     bound_buffer := buf; current_program := prog;
     clear_color := clear_color m; rendered := rendered m;
     created := created m; released := released m;
     stale_deletes := stale_deletes m; flagged := flagged m |}.

Definition set_clear_color (c : float * float * float * float) : Machine :=
  {| window := window m; close_flag := close_flag m; polls := polls m;
     clock_reads := clock_reads m; next_object := next_object m;
     next_buffer := next_buffer m; next_array := next_array m;
     shaders := shaders m; programs := programs m; buffers := buffers m;
     arrays := arrays m; bound_array := bound_array m;
     bound_buffer := bound_buffer m; current_program := current_program m;
     clear_color := c; rendered := rendered m;
     created := created m; released := released m;
     stale_deletes := stale_deletes m; flagged := flagged m |}.

Definition set_rendered (l : list Render) : Machine :=
  {| window := window m; close_flag := close_flag m; polls := polls m;
     clock_reads := clock_reads m; next_object := next_object m;
     next_buffer := next_buffer m; next_array := next_array m;
     shaders := shaders m; programs := programs m; buffers := buffers m;
     arrays := arrays m; bound_array := bound_array m;
     bound_buffer := bound_buffer m; current_program := current_program m;
     clear_color := clear_color m; rendered := l;
     created := created m; released := released m;
     stale_deletes := stale_deletes m; flagged := flagged m |}.

Definition set_deletes (rel stale : list Obj) : Machine :=
  {| window := window m; close_flag := close_flag m; polls := polls m;
     clock_reads := clock_reads m; next_object := next_object m;
     next_buffer := next_buffer m; next_array := next_array m;
     shaders := shaders m; programs := programs m; buffers := buffers m;
     arrays := arrays m; bound_array := bound_array m;
     bound_buffer := bound_buffer m; current_program := current_program m;
     clear_color := clear_color m; rendered := rendered m;
     created := created m; released := rel;
     stale_deletes := stale; flagged := flagged m |}.

Definition set_flagged (l : list Obj) : Machine :=
  {| window := window m; close_flag := close_flag m; polls := polls m;
     clock_reads := clock_reads m; next_object := next_object m;
     next_buffer := next_buffer m; next_array := next_array m;
     shaders := shaders m; programs := programs m; buffers := buffers m;
     arrays := arrays m; bound_array := bound_array m;
     bound_buffer := bound_buffer m; current_program := current_program m;
     clear_color := clear_color m; rendered := rendered m;
     created := created m; released := released m;
     stale_deletes := stale_deletes m; flagged := l |}.
End Setters.

(** ** What each call does *)

Section Machine.
Context (W : World).

Definition new_shader (type : ShaderType) : Shader :=
  {| sh_type := type; sh_source := ""; sh_compiled := false; sh_log := "" |}.

Definition new_program : Program :=
  {| pg_attached := []; pg_linked := false; pg_log := "";
     pg_fragment := None; pg_uniforms := ∅ |}.

Definition new_buffer : Buffer := {| buf_size := 0; buf_data := NoData |}.

Definition new_array : VertexArray :=
  {| va_attribs := ∅; va_enabled := ∅; va_element_buffer := 0 |}.

Definition with_source (source : string) (s : Shader) : Shader :=
  {| sh_type := sh_type s; sh_source := source;
     sh_compiled := sh_compiled s; sh_log := sh_log s |}.

(** [glCompileShader]: the status and the log are the compiler's. *)
Definition compile (s : Shader) : Shader :=
  {| sh_type := sh_type s; sh_source := sh_source s;
     sh_compiled := compile_ok W (sh_type s) (sh_source s);
     sh_log := compile_log W (sh_type s) (sh_source s) |}.

Definition attach (shader : N) (p : Program) : Program :=
  {| pg_attached := pg_attached p ++ [shader]; pg_linked := pg_linked p;
     pg_log := pg_log p; pg_fragment := pg_fragment p;
     pg_uniforms := pg_uniforms p |}.

(** The stages a program would be linked from: those of its attached
    shaders that still exist. *)
Definition stages (t : gmap N Shader) (p : Program)
  : list (ShaderType * string * bool) :=
  omap (λ n, (λ s, (sh_type s, sh_source s, sh_compiled s)) <$> t !! n)
    (pg_attached p).

Definition fragment_of (l : list (ShaderType * string * bool))
  : option string :=
  (λ e : ShaderType * string * bool, e.1.2)
    <$> head (filter (λ e, e.1.1 = GL_FRAGMENT_SHADER) l).

(** [glLinkProgram]: the status and the log are the linker's; a successful
    link installs the fragment stage and resets the uniforms. *)
Definition link (t : gmap N Shader) (p : Program) : Program :=
  let l := stages t p in
  {| pg_attached := pg_attached p; pg_linked := link_ok W l;
     pg_log := link_log W l;
     pg_fragment := if link_ok W l then fragment_of l else None;
     pg_uniforms := ∅ |}.

(** [glUniform1f] on the program in use; location -1 is silently
    ignored, and a program that is not linked has no uniform to write. *)
Definition with_uniform (location : Z) (v : float) (p : Program) : Program :=
  {| pg_attached := pg_attached p; pg_linked := pg_linked p;
     pg_log := pg_log p; pg_fragment := pg_fragment p;
     pg_uniforms := if decide (location = -1) then pg_uniforms p
                    else if pg_linked p then <[location := v]> (pg_uniforms p)
                    else pg_uniforms p |}.

Definition with_element_buffer (buffer : N) (v : VertexArray) : VertexArray :=
  {| va_attribs := va_attribs v; va_enabled := va_enabled v;
     va_element_buffer := buffer |}.

Definition with_attrib (index : N) (a : Attrib) (v : VertexArray)
  : VertexArray :=
  {| va_attribs := <[index := a]> (va_attribs v);
     va_enabled := va_enabled v;
     va_element_buffer := va_element_buffer v |}.

Definition with_enabled (index : N) (v : VertexArray) : VertexArray :=
  {| va_attribs := va_attribs v; va_enabled := {[index]} ∪ va_enabled v;
     va_element_buffer := va_element_buffer v |}.

(** The element buffer of the bound vertex array (0 when there is none). *)
Definition element_buffer (m : Machine) : N :=
  default 0%N (va_element_buffer <$> arrays m !! bound_array m).

(** The buffer a target currently designates. *)
Definition target_buffer (target : BufferTarget) (m : Machine) : N :=
  match target with
  | GL_ARRAY_BUFFER => bound_buffer m
  | GL_ELEMENT_ARRAY_BUFFER => element_buffer m
  end.

(** The first [n] characters of a text: what fits a [char] array of
    [n + 1] bytes together with its terminator. *)
Definition truncate (n : nat) (s : string) : string := String.substring 0 n s.

(** The indices a draw reads: [count] entries of the element buffer from
    byte offset [offset] on. *)
Definition fetch (m : Machine) (count : nat) (type : DataType) (offset : Z)
  : option (list N) :=
  match type, buf_data <$> buffers m !! element_buffer m with
  | GL_UNSIGNED_INT, Some (UInts us) =>
      let first := Z.to_nat (offset / sizeof_unsigned_int) in
      if decide (first + count ≤ length us)%nat
      then Some (take count (drop first us)) else None
  | _, _ => None
  end.

Definition snapshot (m : Machine) (count : nat) (type : DataType)
    (offset : Z) : Draw :=
  let p := programs m !! current_program m in
  {| dr_program := current_program m;
     dr_fragment := p ≫= pg_fragment;
     dr_uniforms := default ∅ (pg_uniforms <$> p);
     dr_array := bound_array m;
     dr_indices := fetch m count type offset |}.

(** The [n] unused names [glGen*] hands out. *)
Definition fresh (first n : N) : list N :=
  (λ i, (first + N.of_nat i)%N) <$> seq 0 (N.to_nat n).

(** Whether a name designates an object of its kind. *)
Definition exists_object (o : Obj) (m : Machine) : bool :=
  match o.1 with
  | KShader => bool_decide (is_Some (shaders m !! o.2))
  | KProgram => bool_decide (is_Some (programs m !! o.2))
  | KBuffer => bool_decide (is_Some (buffers m !! o.2))
  | KVertexArray => bool_decide (is_Some (arrays m !! o.2))
  end.

(** An object that is there and has not been handed to [glDelete*]. *)
Definition is_live (o : Obj) (m : Machine) : bool :=
  exists_object o m && bool_decide (o ∉ flagged m).

Definition forget (o : Obj) (m : Machine) : Machine :=
  match o.1 with
  | KShader => set_shaders m (delete o.2 (shaders m))
  | KProgram => set_programs m (delete o.2 (programs m))
  | KBuffer => set_buffers m (delete o.2 (buffers m))
  | KVertexArray => set_arrays m (delete o.2 (arrays m))
  end.

(** Whether a vertex array reads from a buffer. *)
Definition reads_from (buffer : N) (v : VertexArray) : bool :=
  bool_decide (va_element_buffer v = buffer)
  || existsb (λ e : N * Attrib, bool_decide (at_buffer e.2 = buffer))
       (map_to_list (va_attribs v)).

(** Whether the context still uses an object: a shader attached to a
    program, the program in use, a buffer some vertex array reads from.
    Such an object outlives its [glDelete*]. *)
Definition in_use (o : Obj) (m : Machine) : bool :=
  match o.1 with
  | KShader =>
      existsb (λ e : N * Program, bool_decide (o.2 ∈ pg_attached e.2))
        (map_to_list (programs m))
  | KProgram => bool_decide (current_program m = o.2)
  | KBuffer =>
      existsb (λ e : N * VertexArray, reads_from o.2 e.2)
        (map_to_list (arrays m))
  | KVertexArray => false
  end.

(** The flagged objects of one kind that nothing uses any more go. *)
Definition doomed (k : Kind) (m : Machine) : list Obj :=
  List.filter (λ o, bool_decide (o.1 = k) && negb (in_use o m)) (flagged m).

Definition sweep (k : Kind) (m : Machine) : Machine :=
  foldr forget
    (set_flagged m
       (List.filter (λ o, negb (bool_decide (o.1 = k) && negb (in_use o m)))
          (flagged m)))
    (doomed k m).

(** Programs first, since a program that goes detaches its shaders. *)
Definition collect (m : Machine) : Machine :=
  sweep KBuffer (sweep KShader (sweep KProgram m)).

Definition without_buffer (buffer : N) (v : VertexArray) : VertexArray :=
  {| va_attribs :=
       (λ a, if decide (at_buffer a = buffer)
             then {| at_size := at_size a; at_type := at_type a;
                     at_normalized := at_normalized a;
                     at_stride := at_stride a; at_offset := at_offset a;
                     at_buffer := 0 |}
             else a) <$> va_attribs v;
     va_enabled := va_enabled v;
     va_element_buffer := if decide (va_element_buffer v = buffer) then 0%N
                          else va_element_buffer v |}.

(** Deleting a bound object first takes it out of the bindings of the
    context: a bound vertex array gives way to none, a buffer leaves
    [GL_ARRAY_BUFFER] and the bound vertex array. *)
Definition unbind (o : Obj) (m : Machine) : Machine :=
  match o.1 with
  | KVertexArray =>
      if decide (bound_array m = o.2)
      then set_bindings m 0 (bound_buffer m) (current_program m) else m
  | KBuffer =>
      set_arrays
        (set_bindings m (bound_array m)
           (if decide (bound_buffer m = o.2) then 0%N else bound_buffer m)
           (current_program m))
        (alter (without_buffer o.2) (bound_array m) (arrays m))
  | _ => m
  end.

(** [glDelete*] on one name.  A live object is taken out of the bindings
    and flagged; it goes at once unless the context still uses it, and
    then as soon as it does not.  A name that is not live (never handed
    out, deleted or flagged before) is noted as a stale delete. *)
Definition release (o : Obj) (m : Machine) : Machine :=
  if is_live o m
  then collect
         (set_flagged
            (unbind o (set_deletes m (released m ++ [o]) (stale_deletes m)))
            (flagged m ++ [o]))
  else set_deletes m (released m) (stale_deletes m ++ [o]).

Definition release_all (k : Kind) (names : list N) (m : Machine) : Machine :=
  foldl (λ m' n, release (k, n) m') m names.

(** [glUseProgram]: a program that is not linked is refused and the
    program in use stays; 0 stands for no program.  A flagged program that
    is no longer in use goes. *)
Definition use_program (program : N) (m : Machine) : Machine :=
  if decide (program = 0%N)
  then collect (set_bindings m (bound_array m) (bound_buffer m) 0)
  else if default false (pg_linked <$> programs m !! program)
  then collect (set_bindings m (bound_array m) (bound_buffer m) program)
  else m.

(** [glfwTerminate] destroys the window and with it the context and every
    object in it. *)
Definition terminate (m : Machine) : Machine :=
  {| window := false; close_flag := close_flag m; polls := polls m;
     clock_reads := clock_reads m; next_object := next_object m;
     next_buffer := next_buffer m; next_array := next_array m;
     shaders := ∅; programs := ∅; buffers := ∅; arrays := ∅;
     bound_array := 0; bound_buffer := 0; current_program := 0;
     clear_color := clear_color boot; rendered := rendered m;
     created := created m; released := released m;
     stale_deletes := stale_deletes m; flagged := [] |}.

(** One call: its result and the machine after it. *)
Definition step (c : Call) (m : Machine) : Ret * Machine :=
  match c with
  | glfwInit => (RInt 1, m)
  | glfwWindowHint _ _ => (RVoid, m)
  | glfwCreateWindow _ _ _ => (RPointer (window_ok W), set_window m (window_ok W))
  | glfwMakeContextCurrent => (RVoid, m)
  | gladLoadGLLoader => (RInt (Z.b2z (loader_ok W)), m)
  | glCreateShader type =>
      let n := next_object m in
      (RUInt n,
       set_shaders
         (set_names m (n + 1)%N (next_buffer m) (next_array m)
            (created m ++ [(KShader, n)]))
         (<[n := new_shader type]> (shaders m)))
  | glShaderSource shader source =>
      (RVoid, set_shaders m (alter (with_source source) shader (shaders m)))
  | glCompileShader shader =>
      (RVoid, set_shaders m (alter compile shader (shaders m)))
  | glGetShaderiv shader GL_COMPILE_STATUS =>
      (RInt (Z.b2z (default false (sh_compiled <$> shaders m !! shader))), m)
  | glGetShaderInfoLog shader maxLength =>
      (RText (truncate (maxLength - 1)
                (default "" (sh_log <$> shaders m !! shader))), m)
  | glCreateProgram =>
      let n := next_object m in
      (RUInt n,
       set_programs
         (set_names m (n + 1)%N (next_buffer m) (next_array m)
            (created m ++ [(KProgram, n)]))
         (<[n := new_program]> (programs m)))
  | glAttachShader program shader =>
      (RVoid, set_programs m (alter (attach shader) program (programs m)))
  | glLinkProgram program =>
      (RVoid, set_programs m (alter (link (shaders m)) program (programs m)))
  | glGetProgramiv program GL_LINK_STATUS =>
      (RInt (Z.b2z (default false (pg_linked <$> programs m !! program))), m)
  | glGetProgramInfoLog program maxLength =>
      (RText (truncate (maxLength - 1)
                (default "" (pg_log <$> programs m !! program))), m)
  | glDeleteShader shader => (RVoid, release (KShader, shader) m)
  | glGenVertexArrays n =>
      let names := fresh (next_array m) n in
      (RUInts names,
       set_arrays
         (set_names m (next_object m) (next_buffer m) (next_array m + n)%N
            (created m ++ (pair KVertexArray <$> names)))
         (foldr (λ a, <[a := new_array]>) (arrays m) names))
  | glGenBuffers n =>
      let names := fresh (next_buffer m) n in
      (RUInts names,
       set_buffers
         (set_names m (next_object m) (next_buffer m + n)%N (next_array m)
            (created m ++ (pair KBuffer <$> names)))
         (foldr (λ b, <[b := new_buffer]>) (buffers m) names))
  | glBindVertexArray array =>
      (RVoid, set_bindings m array (bound_buffer m) (current_program m))
  | glBindBuffer GL_ARRAY_BUFFER buffer =>
      (RVoid, set_bindings m (bound_array m) buffer (current_program m))
  | glBindBuffer GL_ELEMENT_ARRAY_BUFFER buffer =>
      (RVoid,
       set_arrays m
         (alter (with_element_buffer buffer) (bound_array m) (arrays m)))
  | glBufferData target size data _ =>
      (RVoid,
       set_buffers m
         (alter (λ _, {| buf_size := size; buf_data := data |})
            (target_buffer target m) (buffers m)))
  | glVertexAttribPointer index size type normalized stride pointer =>
      (RVoid,
       set_arrays m
         (alter
            (with_attrib index
               {| at_size := size; at_type := type;
                  at_normalized := normalized; at_stride := stride;
                  at_offset := pointer; at_buffer := bound_buffer m |})
            (bound_array m) (arrays m)))
  | glEnableVertexAttribArray index =>
      (RVoid,
       set_arrays m (alter (with_enabled index) (bound_array m) (arrays m)))
  | glfwWindowShouldClose => (RInt (Z.b2z (close_flag m)), m)
  | glClearColor red green blue alpha =>
      (RVoid, set_clear_color m (red, green, blue, alpha))
  | glClear GL_COLOR_BUFFER_BIT =>
      (RVoid, set_rendered m (rendered m ++ [Cleared (clear_color m)]))
  | glUseProgram program => (RVoid, use_program program m)
  | glDrawElements _ count type indices =>
      (RVoid,
       set_rendered m (rendered m ++ [Drawn (snapshot m count type indices)]))
  | glfwGetTime =>
      (RDouble (clock W (clock_reads m)),
       set_clock_reads m (S (clock_reads m)))
  | glGetUniformLocation program name =>
      (RInt (if default false (pg_linked <$> programs m !! program)
             then uniform_location W program name else -1), m)
  | glUniform1f location v0 =>
      (RVoid,
       set_programs m
         (alter (with_uniform location v0) (current_program m)
            (programs m)))
  | glfwSwapBuffers => (RVoid, set_rendered m (rendered m ++ [Presented]))
  | glfwPollEvents =>
      (RVoid,
       set_events m (close_flag m || close_request W (polls m))
         (S (polls m)))
  | glDeleteVertexArrays names => (RVoid, release_all KVertexArray names m)
  | glDeleteBuffers names => (RVoid, release_all KBuffer names m)
  | glDeleteProgram program => (RVoid, release (KProgram, program) m)
  | glfwTerminate => (RVoid, terminate m)
  end.

(** The machine after a sequence of calls. *)
Definition replay (cs : list Call) (m : Machine) : Machine :=
  foldl (λ m' c, (step c m').2) m cs.
End Machine.

(** ** The program *)

(** The process: the machine it drives, the calls it has made so far (oldest
    first) and what it has written to standard output. *)
Record State := {
  machine : Machine;
  calls : list Call;
  stdout : string
}.

Definition start : State := {| machine := boot; calls := []; stdout := "" |}.

Definition M (A : Type) : Type := State -> A * State.

Definition ret {A} (a : A) : M A := λ st, (a, st).
Definition bind {A B} (c : M A) (k : A -> M B) : M B :=
  λ st, let '(a, st') := c st in k a st'.

Declare Scope prog_scope.
Delimit Scope prog_scope with prog.
Notation "x <- c ; k" := (bind c (λ x, k))
  (at level 100, c at next level, right associativity) : prog_scope.
Notation "c ;; k" := (bind c (λ _, k))
  (at level 100, right associativity) : prog_scope.
Local Open Scope prog_scope.

(** The line break: the escape [\n] in a literal, and what [std::endl]
    writes. *)
Definition endl : string := String "010"%char "".

Section Program.
Context (W : World).

(** Issue one call: the machine moves, the call is recorded. *)
Definition call (c : Call) : M Ret :=
  λ st, ((step W c (machine st)).1,
          {| machine := (step W c (machine st)).2;
             calls := calls st ++ [c];
             stdout := stdout st |}).

Definition void (c : Call) : M unit := _ <- call c; ret tt.
Definition int (c : Call) : M Z := v <- call c; ret (ret_int v).
Definition uint (c : Call) : M N := v <- call c; ret (ret_uint v).
Definition double (c : Call) : M Q := v <- call c; ret (ret_double v).
Definition pointer (c : Call) : M bool := v <- call c; ret (ret_pointer v).
Definition text (c : Call) : M string := v <- call c; ret (ret_text v).

(** [std::cout << s]. *)
Definition cout (s : string) : M unit :=
  λ st, (tt, {| machine := machine st; calls := calls st;
                stdout := stdout st +:+ s |}).

(** The conversion of [float timeValue = glfwGetTime()]: the reading is
    rounded to the nearest [float]. *)
Definition float_of_double (d : Q) : float := Binary32.round d.

(** A literal with the suffix [f]. *)
Definition literal (q : Q) : float := Binary32.round q.

(** [void checkCompile(unsigned int shader)]; [infoLog] is [char[512]]. *)
Definition checkCompile (shader : N) : M unit :=
  success <- int (glGetShaderiv shader GL_COMPILE_STATUS);
  if decide (success = 0) then
    infoLog <- text (glGetShaderInfoLog shader 512);
    cout ("Shader compilation error:" +:+ endl +:+ infoLog +:+ endl)
  else ret tt.

(** [void checkLink(unsigned int program)]; [infoLog] is [char[512]]. *)
Definition checkLink (program : N) : M unit :=
  success <- int (glGetProgramiv program GL_LINK_STATUS);
  if decide (success = 0) then
    infoLog <- text (glGetProgramInfoLog program 512);
    cout ("Program linking error:" +:+ endl +:+ infoLog +:+ endl)
  else ret tt.

(** The arrays [vertices] and [indices] of [main]. *)
Definition vertices : list float := literal <$> [
  (* positions *)         (* texcoords *)
  (* Quad 1 (normal) *)
  -0.9;  0.5; 0.0;  0.0; 1.0;  (* top-left *)
  -0.9;  0.0; 0.0;  0.0; 0.0;  (* bottom-left *)
  -0.5;  0.0; 0.0;  1.0; 0.0;  (* bottom-right *)
  -0.5;  0.5; 0.0;  1.0; 1.0;  (* top-right *)
  (* Quad 2 (wave) *)
   0.5;  0.5; 0.0;  0.0; 1.0;  (* top-left *)
   0.5;  0.0; 0.0;  0.0; 0.0;  (* bottom-left *)
   0.9;  0.0; 0.0;  1.0; 0.0;  (* bottom-right *)
   0.9;  0.5; 0.0;  1.0; 1.0   (* top-right *)
]%Q.

Definition indices : list N := [
  0; 1; 2;  0; 2; 3;  (* quad1 *)
  4; 5; 6;  4; 6; 7   (* quad2 *)
]%N.

(** The names [main] keeps for the render loop and the cleanup. *)
Record Handles := {
  normalShader : N;
  waveShader : N;
  VAO : N;
  VBO : N;
  EBO : N
}.

(** [main], lines 92 to 116: build shaders. *)
Definition build_shaders : M (N * N) :=
  vertexShader <- uint (glCreateShader GL_VERTEX_SHADER);
  void (glShaderSource vertexShader vertexShaderSource);;
  void (glCompileShader vertexShader);; checkCompile vertexShader;;

  normalFrag <- uint (glCreateShader GL_FRAGMENT_SHADER);
  void (glShaderSource normalFrag normalFragSource);;
  void (glCompileShader normalFrag);; checkCompile normalFrag;;

  waveFrag <- uint (glCreateShader GL_FRAGMENT_SHADER);
  void (glShaderSource waveFrag waveFragSource);;
  void (glCompileShader waveFrag);; checkCompile waveFrag;;

  normalShader <- uint glCreateProgram;
  void (glAttachShader normalShader vertexShader);;
  void (glAttachShader normalShader normalFrag);;
  void (glLinkProgram normalShader);; checkLink normalShader;;

  waveShader <- uint glCreateProgram;
  void (glAttachShader waveShader vertexShader);;
  void (glAttachShader waveShader waveFrag);;
  void (glLinkProgram waveShader);; checkLink waveShader;;

  void (glDeleteShader vertexShader);;
  void (glDeleteShader normalFrag);;
  void (glDeleteShader waveFrag);;
  ret (normalShader, waveShader).

(** [main], lines 121 to 160: vertex data (two quads). *)
Definition upload_geometry : M (N * N * N) :=
  VAO <- uint (glGenVertexArrays 1);
  VBO <- uint (glGenBuffers 1);
  EBO <- uint (glGenBuffers 1);

  void (glBindVertexArray VAO);;
  void (glBindBuffer GL_ARRAY_BUFFER VBO);;
  void (glBufferData GL_ARRAY_BUFFER (sizeof (Floats vertices))
          (Floats vertices) GL_STATIC_DRAW);;

  void (glBindBuffer GL_ELEMENT_ARRAY_BUFFER EBO);;
  void (glBufferData GL_ELEMENT_ARRAY_BUFFER (sizeof (UInts indices))
          (UInts indices) GL_STATIC_DRAW);;

  (* Position *)
  void (glVertexAttribPointer 0 3 GL_FLOAT false (5 * sizeof_float) 0);;
  void (glEnableVertexAttribArray 0);;
  (* TexCoord *)
  void (glVertexAttribPointer 1 2 GL_FLOAT false (5 * sizeof_float)
          (3 * sizeof_float));;
  void (glEnableVertexAttribArray 1);;

  void (glBindVertexArray 0);;
  ret (VAO, VBO, EBO).

(** The body of the [while] of [main], lines 167 to 185.  The expression
    statement [normalShader;] of line 173 does nothing. *)
Definition render_frame (h : Handles) : M unit :=
  void (glClearColor (literal 0.2) (literal 0.2) (literal 0.2)
          (literal 1.0));;
  void (glClear GL_COLOR_BUFFER_BIT);;

  void (glBindVertexArray (VAO h));;

  (* Draw first quad normally *)
  void (glUseProgram (normalShader h));;
  void (glDrawElements GL_TRIANGLES 6 GL_UNSIGNED_INT 0);;

  (* Draw second quad with wave effect *)
  void (glUseProgram (waveShader h));;
  timeValue <- (d <- double glfwGetTime; ret (float_of_double d));
  timeLoc <- int (glGetUniformLocation (waveShader h) "time");
  void (glUniform1f timeLoc timeValue);;
  void (glDrawElements GL_TRIANGLES 6 GL_UNSIGNED_INT
          (6 * sizeof_unsigned_int));;

  void glfwSwapBuffers;;
  void glfwPollEvents.

(** [while (!glfwWindowShouldClose(window)) { ... }], allowed at most
    [fuel] evaluations of its condition.  [true]: the loop was left;
    [false]: it is still running when the fuel is spent. *)
Fixpoint render_loop (fuel : nat) (h : Handles) : M bool :=
  match fuel with
  | O => ret false
  | S fuel' =>
      close <- int glfwWindowShouldClose;
      if decide (close = 0)
      then render_frame h;; render_loop fuel' h
      else ret true
  end.

(** [main], lines 189 to 195: cleanup. *)
Definition cleanup (h : Handles) : M unit :=
  void (glDeleteVertexArrays [VAO h]);;
  void (glDeleteBuffers [VBO h]);;
  void (glDeleteBuffers [EBO h]);;
  void (glDeleteProgram (normalShader h));;
  void (glDeleteProgram (waveShader h));;
  void glfwTerminate.

(** [int main()].  [Some code]: the process returned [code]; [None]: the
    render loop is still running after [fuel] evaluations of its
    condition. *)
Definition main (fuel : nat) : M (option Z) :=
  (* Initialize GLFW *)
  void glfwInit;;
  void (glfwWindowHint GLFW_CONTEXT_VERSION_MAJOR (HintInt 3));;
  void (glfwWindowHint GLFW_CONTEXT_VERSION_MINOR (HintInt 3));;
  void (glfwWindowHint GLFW_OPENGL_PROFILE GLFW_OPENGL_CORE_PROFILE);;

  window <- pointer (glfwCreateWindow 800 600 "Two Quads One Shader Effect");
  if negb window then
    cout ("Failed to create GLFW window" +:+ endl);; ret (Some (-1))
  else
  void glfwMakeContextCurrent;;

  (* Load OpenGL functions *)
  loaded <- int gladLoadGLLoader;
  if decide (loaded = 0) then
    cout ("Failed to init GLAD" +:+ endl);; ret (Some (-1))
  else
  built <- build_shaders;
  geometry <- upload_geometry;
  let h := {| normalShader := built.1; waveShader := built.2;
              VAO := geometry.1.1; VBO := geometry.1.2; EBO := geometry.2 |} in
  left <- render_loop fuel h;
  if left then cleanup h;; ret (Some 0) else ret None.
End Program.

(** ** What a run looks like *)

(** The run of [main] spelled out: the names the fresh machine hands out, the
    calls of each phase, and the machine at the head of the render loop.
    The lemmas of the next part show that [main] does exactly this. *)
Section Run.
Context (W : World).

(** The names [main] receives: shaders 1, 2, 3 and programs 4, 5 from one
    name space, vertex array 1, buffers 1 and 2. *)
Definition vertexShader : N := 1.
Definition normalFrag : N := 2.
Definition waveFrag : N := 3.

Definition handles : Handles :=
  {| normalShader := 4; waveShader := 5; VAO := 1; VBO := 1; EBO := 2 |}.

Definition stage (type : ShaderType) (source : string)
  : ShaderType * string * bool :=
  (type, source, compile_ok W type source).

Definition flat_stages : list (ShaderType * string * bool) :=
  [stage GL_VERTEX_SHADER vertexShaderSource;
   stage GL_FRAGMENT_SHADER normalFragSource].

Definition wave_stages : list (ShaderType * string * bool) :=
  [stage GL_VERTEX_SHADER vertexShaderSource;
   stage GL_FRAGMENT_SHADER waveFragSource].

(** What is printed when a status query answers failure. *)
Definition diagnostic (caption log : string) : string :=
  caption +:+ endl +:+ truncate 511 log +:+ endl.

Definition compile_calls (shader : N) (type : ShaderType) (source : string)
  : list Call :=
  [glCreateShader type; glShaderSource shader source;
   glCompileShader shader; glGetShaderiv shader GL_COMPILE_STATUS]
  ++ (if compile_ok W type source then []
      else [glGetShaderInfoLog shader 512]).

Definition compile_output (type : ShaderType) (source : string) : string :=
  if compile_ok W type source then ""
  else diagnostic "Shader compilation error:" (compile_log W type source).

Definition link_calls (program vertex fragment : N)
    (l : list (ShaderType * string * bool)) : list Call :=
  [glCreateProgram; glAttachShader program vertex;
   glAttachShader program fragment; glLinkProgram program;
   glGetProgramiv program GL_LINK_STATUS]
  ++ (if link_ok W l then [] else [glGetProgramInfoLog program 512]).

Definition link_output (l : list (ShaderType * string * bool)) : string :=
  if link_ok W l then ""
  else diagnostic "Program linking error:" (link_log W l).

Definition init_calls : list Call :=
  [glfwInit;
   glfwWindowHint GLFW_CONTEXT_VERSION_MAJOR (HintInt 3);
   glfwWindowHint GLFW_CONTEXT_VERSION_MINOR (HintInt 3);
   glfwWindowHint GLFW_OPENGL_PROFILE GLFW_OPENGL_CORE_PROFILE;
   glfwCreateWindow 800 600 "Two Quads One Shader Effect"].

Definition shader_calls : list Call :=
  compile_calls vertexShader GL_VERTEX_SHADER vertexShaderSource
  ++ compile_calls normalFrag GL_FRAGMENT_SHADER normalFragSource
  ++ compile_calls waveFrag GL_FRAGMENT_SHADER waveFragSource
  ++ link_calls (normalShader handles) vertexShader normalFrag flat_stages
  ++ link_calls (waveShader handles) vertexShader waveFrag wave_stages
  ++ [glDeleteShader vertexShader; glDeleteShader normalFrag;
      glDeleteShader waveFrag].

Definition geometry_calls : list Call :=
  [glGenVertexArrays 1; glGenBuffers 1; glGenBuffers 1;
   glBindVertexArray (VAO handles);
   glBindBuffer GL_ARRAY_BUFFER (VBO handles);
   glBufferData GL_ARRAY_BUFFER 160 (Floats vertices) GL_STATIC_DRAW;
   glBindBuffer GL_ELEMENT_ARRAY_BUFFER (EBO handles);
   glBufferData GL_ELEMENT_ARRAY_BUFFER 48 (UInts indices) GL_STATIC_DRAW;
   glVertexAttribPointer 0 3 GL_FLOAT false 20 0;
   glEnableVertexAttribArray 0;
   glVertexAttribPointer 1 2 GL_FLOAT false 20 12;
   glEnableVertexAttribArray 1;
   glBindVertexArray 0].

(** Everything before the render loop, when the window and the loader are
    there. *)
Definition startup_calls : list Call :=
  init_calls ++ [glfwMakeContextCurrent; gladLoadGLLoader]
  ++ shader_calls ++ geometry_calls.

Definition startup_output : string :=
  (((compile_output GL_VERTEX_SHADER vertexShaderSource
     +:+ compile_output GL_FRAGMENT_SHADER normalFragSource)
    +:+ compile_output GL_FRAGMENT_SHADER waveFragSource)
   +:+ link_output flat_stages)
  +:+ link_output wave_stages.

(** The location [glGetUniformLocation(waveShader, "time")] answers. *)
Definition time_location : Z :=
  if link_ok W wave_stages
  then uniform_location W (waveShader handles) "time" else -1.

(** The calls of the [k]-th iteration of the loop body (counting from 0). *)
Definition frame_calls (k : nat) : list Call :=
  [glClearColor (literal 0.2) (literal 0.2) (literal 0.2) (literal 1.0);
   glClear GL_COLOR_BUFFER_BIT;
   glBindVertexArray (VAO handles);
   glUseProgram (normalShader handles);
   glDrawElements GL_TRIANGLES 6 GL_UNSIGNED_INT 0;
   glUseProgram (waveShader handles);
   glfwGetTime;
   glGetUniformLocation (waveShader handles) "time";
   glUniform1f time_location (float_of_double (clock W k));
   glDrawElements GL_TRIANGLES 6 GL_UNSIGNED_INT 24;
   glfwSwapBuffers;
   glfwPollEvents].

(** [k] iterations, each with the evaluation of the condition before it. *)
Definition loop_calls (k : nat) : list Call :=
  flat_map (λ j, glfwWindowShouldClose :: frame_calls j) (seq 0 k).

Definition cleanup_calls : list Call :=
  [glDeleteVertexArrays [VAO handles];
   glDeleteBuffers [VBO handles];
   glDeleteBuffers [EBO handles];
   glDeleteProgram (normalShader handles);
   glDeleteProgram (waveShader handles);
   glfwTerminate].

(** The three shaders as compiled. *)
Definition compiled_shader (type : ShaderType) (source : string) : Shader :=
  {| sh_type := type; sh_source := source;
     sh_compiled := compile_ok W type source;
     sh_log := compile_log W type source |}.

(** The two programs as linked. *)
Definition flat_program : Program :=
  {| pg_attached := [vertexShader; normalFrag];
     pg_linked := link_ok W flat_stages;
     pg_log := link_log W flat_stages;
     pg_fragment := if link_ok W flat_stages then Some normalFragSource
                    else None;
     pg_uniforms := ∅ |}.

Definition wave_program (u : gmap Z float) : Program :=
  {| pg_attached := [vertexShader; waveFrag];
     pg_linked := link_ok W wave_stages;
     pg_log := link_log W wave_stages;
     pg_fragment := if link_ok W wave_stages then Some waveFragSource
                    else None;
     pg_uniforms := u |}.

(** The uniform values of the wave program after [k] iterations. *)
Fixpoint uniforms_after (k : nat) : gmap Z float :=
  match k with
  | O => ∅
  | S j =>
      if decide (time_location = -1) then uniforms_after j
      else <[time_location := float_of_double (clock W j)]>
             (uniforms_after j)
  end.

(** The programs after [k] iterations. *)
Definition programs_after (k : nat) : gmap N Program :=
  <[waveShader handles := wave_program (uniforms_after k)]>
    (<[normalShader handles := flat_program]> ∅).

(** The close flag after [k] iterations: some [glfwPollEvents] so far found
    a close request. *)
Definition flag_after (k : nat) : bool :=
  existsb (close_request W) (seq 0 k).

(** The program in use at the head of the loop after [k] iterations: none
    before the first; then the wave program if it is linked, else the flat
    program if that is linked, else none still. *)
Definition program_in_use (k : nat) : N :=
  match k with
  | O => 0
  | S _ =>
      if link_ok W wave_stages then waveShader handles
      else if link_ok W flat_stages then normalShader handles
      else 0
  end.

(** The program the first draw of iteration [k] is made with: the flat
    program if it is linked, else the one that was in use already. *)
Definition first_program (k : nat) : N :=
  if link_ok W flat_stages then normalShader handles else program_in_use k.

Definition position_attrib : Attrib :=
  {| at_size := 3; at_type := GL_FLOAT; at_normalized := false;
     at_stride := 20; at_offset := 0; at_buffer := VBO handles |}.

Definition texcoord_attrib : Attrib :=
  {| at_size := 2; at_type := GL_FLOAT; at_normalized := false;
     at_stride := 20; at_offset := 12; at_buffer := VBO handles |}.

Definition geometry_array : VertexArray :=
  {| va_attribs := <[1%N := texcoord_attrib]> {[0%N := position_attrib]};
     va_enabled := {[1%N]} ∪ ({[0%N]} ∪ ∅);
     va_element_buffer := EBO handles |}.

Definition vertex_buffer : Buffer :=
  {| buf_size := 160; buf_data := Floats vertices |}.

Definition index_buffer : Buffer :=
  {| buf_size := 48; buf_data := UInts indices |}.

Definition gray : float * float * float * float :=
  (literal 0.2, literal 0.2, literal 0.2, literal 1.0).

(** What a draw is given when [program] is in use and the programs are
    [t]. *)
Definition draw_with (program : N) (t : gmap N Program) (fetched : list N)
  : Draw :=
  {| dr_program := program;
     dr_fragment := t !! program ≫= pg_fragment;
     dr_uniforms := default ∅ (pg_uniforms <$> t !! program);
     dr_array := VAO handles;
     dr_indices := Some fetched |}.

(** What the two draws of iteration [k] are given. *)
Definition flat_draw (k : nat) : Draw :=
  draw_with (first_program k) (programs_after k) [0; 1; 2; 0; 2; 3]%N.

Definition wave_draw (k : nat) : Draw :=
  draw_with (program_in_use (S k)) (programs_after (S k))
    [4; 5; 6; 4; 6; 7]%N.

Definition frame_output (k : nat) : list Render :=
  [Cleared gray; Drawn (flat_draw k); Drawn (wave_draw k); Presented].

(** The machine at the head of the loop after [k] iterations.  The three
    shaders were handed to [glDeleteShader] while attached: they are
    flagged and still there. *)
Definition loop_machine (k : nat) : Machine :=
  {| window := true;
     close_flag := flag_after k;
     polls := k;
     clock_reads := k;
     next_object := 6; next_buffer := 3; next_array := 2;
     shaders :=
       <[waveFrag := compiled_shader GL_FRAGMENT_SHADER waveFragSource]>
         (<[normalFrag
            := compiled_shader GL_FRAGMENT_SHADER normalFragSource]>
            (<[vertexShader
               := compiled_shader GL_VERTEX_SHADER vertexShaderSource]> ∅));
     programs := programs_after k;
     buffers := <[EBO handles := index_buffer]>
                  (<[VBO handles := vertex_buffer]> ∅);
     arrays := <[VAO handles := geometry_array]> ∅;
     bound_array := match k with O => 0 | S _ => VAO handles end;
     bound_buffer := VBO handles;
     current_program := program_in_use k;
     clear_color := match k with O => clear_color boot | S _ => gray end;
     rendered := flat_map frame_output (seq 0 k);
     created := [(KShader, vertexShader); (KShader, normalFrag);
                 (KShader, waveFrag); (KProgram, normalShader handles);
                 (KProgram, waveShader handles);
                 (KVertexArray, VAO handles); (KBuffer, VBO handles);
                 (KBuffer, EBO handles)];
     released := [(KShader, vertexShader); (KShader, normalFrag);
                  (KShader, waveFrag)];
     stale_deletes := [];
     flagged := [(KShader, vertexShader); (KShader, normalFrag);
                 (KShader, waveFrag)] |}.

(** The machine when [main] returns 0 after [k] iterations: the context is
    gone and every object with it. *)
Definition final_machine (k : nat) : Machine :=
  {| window := false;
     close_flag := flag_after k;
     polls := k;
     clock_reads := k;
     next_object := 6; next_buffer := 3; next_array := 2;
     shaders := ∅; programs := ∅; buffers := ∅; arrays := ∅;
     bound_array := 0; bound_buffer := 0; current_program := 0;
     clear_color := clear_color boot;
     rendered := flat_map frame_output (seq 0 k);
     created := created (loop_machine k);
     released := released (loop_machine k)
                 ++ [(KVertexArray, VAO handles); (KBuffer, VBO handles);
                     (KBuffer, EBO handles);
                     (KProgram, normalShader handles);
                     (KProgram, waveShader handles)];
     stale_deletes := [];
     flagged := [] |}.

(** The number of iterations the loop performs when it may evaluate its
    condition [fuel] times, starting after [k] iterations; and whether it
    has been left by then. *)
Fixpoint iterations (fuel k : nat) : nat :=
  match fuel with
  | O => k
  | S fuel' => if flag_after k then k else iterations fuel' (S k)
  end.

Fixpoint leaves (fuel k : nat) : bool :=
  match fuel with
  | O => false
  | S fuel' => if flag_after k then true else leaves fuel' (S k)
  end.
End Run.

(** ** Reading a run *)

(** What the status queries of [checkCompile] and [checkLink] find in the
    machine. *)
Definition compiled (m : Machine) (shader : N) : bool :=
  default false (sh_compiled <$> shaders m !! shader).
Definition shader_log (m : Machine) (shader : N) : string :=
  default "" (sh_log <$> shaders m !! shader).
Definition linked (m : Machine) (program : N) : bool :=
  default false (pg_linked <$> programs m !! program).
Definition program_log (m : Machine) (program : N) : string :=
  default "" (pg_log <$> programs m !! program).

(** What a call adds to the output. *)
Definition emitted (c : Call) (m : Machine) : list Render :=
  match c with
  | glClear _ => [Cleared (clear_color m)]
  | glDrawElements _ count type indices =>
      [Drawn (snapshot m count type indices)]
  | glfwSwapBuffers => [Presented]
  | _ => []
  end.

(** The output of a sequence of calls made from machine [m] on. *)
Fixpoint output (W : World) (cs : list Call) (m : Machine) : list Render :=
  match cs with
  | [] => []
  | c :: cs' => emitted c m ++ output W cs' (step W c m).2
  end.

(** The calls of one iteration, on any machine and with any names: those up
    to the second [glUseProgram], and all of them.  The location and the
    time handed to [glUniform1f] are what the machine answers then. *)
Definition frame_prelude (h : Handles) : list Call :=
  [glClearColor (literal 0.2) (literal 0.2) (literal 0.2) (literal 1.0);
   glClear GL_COLOR_BUFFER_BIT;
   glBindVertexArray (VAO h);
   glUseProgram (normalShader h);
   glDrawElements GL_TRIANGLES 6 GL_UNSIGNED_INT 0;
   glUseProgram (waveShader h)].

Definition frame_calls_at (W : World) (h : Handles) (m : Machine) : list Call :=
  let m' := replay W (frame_prelude h) m in
  frame_prelude h
  ++ [glfwGetTime;
      glGetUniformLocation (waveShader h) "time";
      glUniform1f
        (if linked m' (waveShader h)
         then uniform_location W (waveShader h) "time" else -1)
        (float_of_double (clock W (clock_reads m')));
      glDrawElements GL_TRIANGLES 6 GL_UNSIGNED_INT 24;
      glfwSwapBuffers;
      glfwPollEvents].

(** The process when the loop is entered. *)
Definition ready (W : World) : State :=
  {| machine := loop_machine W 0; calls := startup_calls W;
     stdout := startup_output W |}.

(** The rest of [main] from the loop on. *)
Definition finish (W : World) (fuel : nat) (h : Handles) : M (option Z) :=
  left <- render_loop W fuel h;
  if left then cleanup W h;; ret (Some 0) else ret None.

(** The machine of a process is what its calls have made of the booted
    one: [call] is the only thing that moves it. *)
Definition consistent (W : World) (st : State) : Prop :=
  machine st = replay W (calls st) boot.

(** A piece of program that keeps it so. *)
Definition preserves (W : World) {A} (c : M A) : Prop :=
  ∀ st, consistent W st -> consistent W (c st).2.

(** What the fragment stage of a draw writes for a fragment whose
    interpolated texture coordinate is [TexCoord]: the stage runs as its
    source says, with the sine of the GPU, reading the uniform [time] from
    the location the linker gave it (0 when nothing was written there);
    without an executable nothing is written. *)
Definition fragment_color (W : World) (d : Draw) (TexCoord : GLSL.vec2)
  : option GLSL.vec4 :=
  match dr_fragment d with
  | Some source =>
      if decide (source = normalFragSource)
      then Some (GLSL.normalFrag_main TexCoord)
      else if decide (source = waveFragSource)
      then Some (GLSL.waveFrag_main (gpu_sin W)
                   (default (Binary32.Finite 0)
                      (dr_uniforms d
                         !! uniform_location W (dr_program d) "time"))
                   TexCoord)
      else None
  | None => None
  end.





(** No buffer is flagged for deletion. *)
Definition buffers_settled (m : Machine) : Prop :=
  Forall (λ o : Obj, o.1 ≠ KBuffer) (flagged m).

(** Whether a call deletes GPU objects. *)
Definition is_delete (c : Call) : bool :=
  match c with
  | glDeleteShader _ | glDeleteProgram _ | glDeleteBuffers _
  | glDeleteVertexArrays _ => true
  | _ => false
  end.

(** Whether a call can change what the buffers are or hold. *)
Definition touches_buffers (c : Call) : bool :=
  match c with
  | glGenBuffers _ | glBufferData _ _ _ _ | glDeleteBuffers _
  | glfwTerminate => true
  | _ => false
  end.

(** Whether a call writes the contents of a buffer. *)
Definition is_upload (c : Call) : bool :=
  match c with glBufferData _ _ _ _ => true | _ => false end.

(** The two uploads of [main], and what comes before and after the second
    one at startup. *)
Definition vertex_upload : Call :=
  glBufferData GL_ARRAY_BUFFER (sizeof (Floats vertices))
    (Floats vertices) GL_STATIC_DRAW.

Definition index_upload : Call :=
  glBufferData GL_ELEMENT_ARRAY_BUFFER (sizeof (UInts indices))
    (UInts indices) GL_STATIC_DRAW.

Definition before_upload (W : World) : list Call :=
  init_calls ++ [glfwMakeContextCurrent; gladLoadGLLoader]
  ++ shader_calls W ++ take 7 geometry_calls.

Definition after_upload : list Call := drop 8 geometry_calls.

(** A sine for the worlds below: the Taylor polynomial of degree 13,
    evaluated exactly and kept within [-1, 1].  Up to a quarter turn it is
    within [7 / 10^10] of the sine. *)
Definition series_sin (x : Q) : Q :=
  (x - x ^ 3 / 6 + x ^ 5 / 120 - x ^ 7 / 5040 + x ^ 9 / 362880
   - x ^ 11 / 39916800 + x ^ 13 / 6227020800)%Q.

Definition bounded_sin (x : Q) : Q := Qmax (-1) (Qmin 1 (series_sin x)).

(** Three worlds to run the program in: one where everything works and the
    window is closed during the second iteration, one with another clock,
    another uniform location and a later close request, and one whose
    compiler rejects both fragment stages. *)
Definition demo_world : World :=
  {| window_ok := true; loader_ok := true;
     compile_ok := λ _ _, true; compile_log := λ _ _, "";
     link_ok := λ _, true; link_log := λ _, "";
     uniform_location := λ _ _, 0;
     clock := λ n, (Z.of_nat n # 60)%Q;
     close_request := λ n, bool_decide (n = 1%nat);
     gpu_sin := bounded_sin |}.

Definition late_world : World :=
  {| window_ok := true; loader_ok := true;
     compile_ok := λ _ _, true; compile_log := λ _ _, "";
     link_ok := λ _, true; link_log := λ _, "";
     uniform_location := λ _ _, 3;
     clock := λ n, (100 + Z.of_nat n # 30)%Q;
     close_request := λ n, bool_decide (n = 2%nat);
     gpu_sin := bounded_sin |}.

Definition broken_world : World :=
  {| window_ok := true; loader_ok := true;
     compile_ok := λ type _, bool_decide (type = GL_VERTEX_SHADER);
     compile_log := λ _ _, "0:1(1): error: syntax error";
     link_ok := λ _, false;
     link_log := λ _, "error: linking with uncompiled shader";
     uniform_location := λ _ _, 0;
     clock := λ n, (Z.of_nat n # 60)%Q;
     close_request := λ n, bool_decide (n = 1%nat);
     gpu_sin := bounded_sin |}.

(** ** Further readings of a run *)

(** Whether a call goes to OpenGL rather than to GLFW or glad. *)
Definition is_gl (c : Call) : bool :=
  match c with
  | glfwInit | glfwWindowHint _ _ | glfwCreateWindow _ _ _
  | glfwMakeContextCurrent | gladLoadGLLoader | glfwWindowShouldClose
  | glfwGetTime | glfwSwapBuffers | glfwPollEvents | glfwTerminate => false
  | _ => true
  end.

(** The floats an attribute reads for vertex [i]: [at_size] of them, from
    byte [at_offset + i * at_stride] of its buffer on. *)
Definition attribute_floats (bufs : gmap N Buffer) (a : Attrib) (i : N)
  : option (list float) :=
  match at_type a, buf_data <$> bufs !! at_buffer a with
  | GL_FLOAT, Some (Floats fs) =>
      let first :=
        Z.to_nat ((at_offset a + Z.of_N i * at_stride a) / sizeof_float) in
      let n := Z.to_nat (at_size a) in
      if decide (first + n ≤ length fs)%nat
      then Some (take n (drop first fs)) else None
  | _, _ => None
  end.

(** What the enabled attribute at a location of a vertex array reads for
    vertex [i]. *)
Definition attribute_at (bufs : gmap N Buffer) (va : VertexArray)
    (location i : N) : option (list float) :=
  if decide (location ∈ va_enabled va)
  then va_attribs va !! location ≫= (λ a, attribute_floats bufs a i)
  else None.

(** The inputs [aPos] (location 0) and [aTexCoord] (location 1) of the
    vertex stage for vertex [i] of a vertex array. *)
Definition vertex_inputs (bufs : gmap N Buffer) (va : VertexArray) (i : N)
  : option (GLSL.vec3 * GLSL.vec2) :=
  match attribute_at bufs va 0 i, attribute_at bufs va 1 i with
  | Some [px; py; pz], Some [tx; ty] =>
      Some (GLSL.Vec3 px py pz, GLSL.Vec2 tx ty)
  | _, _ => None
  end.





(** Whether a call passes the name of an object. *)
Definition passes_name (c : Call) : bool :=
  match c with
  | glShaderSource _ _ | glCompileShader _ | glGetShaderiv _ _
  | glGetShaderInfoLog _ _ | glDeleteShader _ | glAttachShader _ _
  | glLinkProgram _ | glGetProgramiv _ _ | glGetProgramInfoLog _ _
  | glGetUniformLocation _ _ | glDeleteProgram _ | glUseProgram _
  | glBindVertexArray _ | glBindBuffer _ _ | glDeleteVertexArrays _
  | glDeleteBuffers _ => true
  | _ => false
  end.

(** A world whose linker accepts the wave program only, and one whose
    linker accepts the flat program only. *)
Definition flat_unlinked_world : World :=
  {| window_ok := true; loader_ok := true;
     compile_ok := λ _ _, true; compile_log := λ _ _, "";
     link_ok := λ l, bool_decide (fragment_of l = Some waveFragSource);
     link_log := λ _, "error: unresolved symbol";
     uniform_location := λ _ _, 0;
     clock := λ n, (Z.of_nat n # 60)%Q;
     close_request := λ n, bool_decide (n = 2%nat);
     gpu_sin := bounded_sin |}.


(** Two worlds in which [main] gives up: one without a window, one without
    the GL entry points. *)
Definition headless_world : World :=
  {| window_ok := false; loader_ok := true;
     compile_ok := λ _ _, true; compile_log := λ _ _, "";
     link_ok := λ _, true; link_log := λ _, "";
     uniform_location := λ _ _, 0;
     clock := λ n, (Z.of_nat n # 60)%Q;
     close_request := λ _, false;
     gpu_sin := bounded_sin |}.

Definition unloaded_world : World :=
  {| window_ok := true; loader_ok := false;
     compile_ok := λ _ _, true; compile_log := λ _ _, "";
     link_ok := λ _, true; link_log := λ _, "";
     uniform_location := λ _ _, 0;
     clock := λ n, (Z.of_nat n # 60)%Q;
     close_request := λ _, false;
     gpu_sin := bounded_sin |}.

(** * Theorems *)

(** ** Rounding *)

Module Binary32Facts.
Import Binary32.
Local Open Scope Z_scope.

Lemma nearest_even_spec num den :
  0 < den -> is_nearest_even num den (nearest_even num den).
Proof.
  intros Hden. unfold is_nearest_even, nearest_even.
  pose proof (Z.div_mod num den ltac:(lia)) as Hdm.
  pose proof (Z.mod_pos_bound num den Hden) as Hr.
  set (d := num / den) in *. set (r := num mod den) in *.
  clearbody d r.
  destruct (Z.compare_spec (2 * r) den) as [He|Hl|Hg].
  - destruct (Z.even d) eqn:Hev.
    + repeat split; first [nia | intros; assumption].
    + repeat split;
        [nia | nia | intros; exfalso; nia
        | intros _; rewrite Z.even_add, Hev; reflexivity].
  - repeat split; try nia; intros; exfalso; nia.
  - repeat split; try nia; intros; exfalso; nia.
Qed.

Lemma is_nearest_even_mono n1 d1 a1 n2 d2 a2 :
  0 < d1 -> 0 < d2 ->
  is_nearest_even n1 d1 a1 -> is_nearest_even n2 d2 a2 ->
  n1 * d2 <= n2 * d1 -> a1 <= a2.
Proof.
  intros Hd1 Hd2 (H1 & T1 & T1') (H2 & T2 & T2') Hle.
  destruct (Z_le_gt_dec a1 a2) as [?|Hgt]; [assumption|exfalso].
  assert (Hc : (2 * a1 - 1) * (d1 * d2) <= (2 * a2 + 1) * (d1 * d2)) by nia.
  assert (Ha : a1 = a2 + 1) by nia.
  assert (E1 : 2 * n1 = (2 * a1 - 1) * d1) by nia.
  assert (E2 : 2 * n2 = (2 * a2 + 1) * d2) by nia.
  specialize (T1' E1). specialize (T2 E2).
  rewrite Ha, Z.even_add, T2 in T1'. discriminate.
Qed.

Lemma nearest_even_mono n1 d1 n2 d2 :
  0 < d1 -> 0 < d2 -> n1 * d2 <= n2 * d1 ->
  nearest_even n1 d1 <= nearest_even n2 d2.
Proof.
  intros Hd1 Hd2. apply is_nearest_even_mono; auto using nearest_even_spec.
Qed.

Lemma nearest_even_unique n d a :
  0 < d -> is_nearest_even n d a -> nearest_even n d = a.
Proof.
  intros Hd Ha. pose proof (nearest_even_spec n d Hd) as Hs.
  apply Z.le_antisymm; eapply is_nearest_even_mono; eauto; lia.
Qed.

Lemma nearest_even_multiple k d : 0 < d -> nearest_even (k * d) d = k.
Proof.
  intros Hd. apply nearest_even_unique; [assumption|].
  unfold is_nearest_even. repeat split; try nia; intros; exfalso; nia.
Qed.

Lemma nearest_even_opp n d :
  0 < d -> nearest_even (- n) d = - nearest_even n d.
Proof.
  intros Hd. apply nearest_even_unique; [assumption|].
  destruct (nearest_even_spec n d Hd) as (H & T & T').
  unfold is_nearest_even. rewrite Z.even_opp.
  repeat split; try nia; intros; [apply T'|apply T]; nia.
Qed.

Lemma magnitude_nonneg q : 0 <= magnitude q.
Proof.
  unfold magnitude. apply Z.div_pos; [|lia].
  apply Z.mul_nonneg_nonneg; [lia|]. apply Z.pow_nonneg. lia.
Qed.

Lemma shift_nonneg q : 0 <= shift q.
Proof. unfold shift. lia. Qed.

Lemma div_le_cross a b c d :
  0 < b -> 0 < d -> a * d <= c * b -> a / b <= c / d.
Proof.
  intros Hb Hd H. apply Z.div_le_lower_bound; [assumption|].
  pose proof (Z.mul_div_le a b Hb). nia.
Qed.

Lemma magnitude_mono x y :
  0 <= Qnum x -> (x <= y)%Q -> magnitude x <= magnitude y.
Proof.
  unfold Qle, magnitude. intros Hx Hle.
  assert (0 < 2 ^ 149) by (apply Z.pow_pos_nonneg; lia).
  assert (0 <= Qnum y) by nia.
  rewrite !Z.abs_eq by assumption.
  apply div_le_cross; [lia|lia|nia].
Qed.

Lemma shift_mono x y :
  0 <= Qnum x -> (x <= y)%Q -> shift x <= shift y.
Proof.
  intros Hx Hle. unfold shift.
  pose proof (Z.log2_le_mono _ _ (magnitude_mono x y Hx Hle)). lia.
Qed.

(** A number that is not negative rounds to fewer than [2^24] units of its
    last place or to exactly that many. *)
Lemma mantissa_upper q :
  0 <= Qnum q ->
  nearest_even (Qnum q * 2 ^ 149) (Z.pos (Qden q) * 2 ^ shift q) <= 2 ^ 24.
Proof.
  intros Hq.
  pose proof (shift_nonneg q) as Hs.
  assert (Hp : 0 < 2 ^ shift q) by (apply Z.pow_pos_nonneg; lia).
  assert (HD : 0 < Z.pos (Qden q) * 2 ^ shift q) by lia.
  rewrite <- (nearest_even_multiple (2 ^ 24) _ HD).
  apply nearest_even_mono; try assumption.
  assert (Hm : Qnum q * 2 ^ 149 < (magnitude q + 1) * Z.pos (Qden q)).
  { unfold magnitude. rewrite Z.abs_eq by assumption.
    pose proof (Z.mul_succ_div_gt (Qnum q * 2 ^ 149) (Z.pos (Qden q))
                  ltac:(lia)). lia. }
  assert (Hb : magnitude q + 1 <= 2 ^ (shift q + 24)).
  { pose proof (magnitude_nonneg q) as Hn.
    destruct (Z.eq_dec (magnitude q) 0) as [->|Hne].
    - assert (0 < 2 ^ (shift q + 24)) by (apply Z.pow_pos_nonneg; lia). lia.
    - pose proof (Z.log2_spec (magnitude q) ltac:(lia)) as [_ Hlt].
      assert (2 ^ Z.succ (Z.log2 (magnitude q)) <= 2 ^ (shift q + 24)).
      { apply Z.pow_le_mono_r; [lia|]. unfold shift. lia. }
      lia. }
  rewrite Z.pow_add_r in Hb by lia.
  set (n := Qnum q * 2 ^ 149) in *. set (S := 2 ^ shift q) in *.
  set (T := 2 ^ 24) in *. set (N := magnitude q) in *.
  set (d := Z.pos (Qden q)) in *.
  clearbody n S T N d.
  assert (n <= T * (d * S)) by nia.
  apply Z.mul_le_mono_nonneg_r; lia.
Qed.

(** A number beyond the subnormal range rounds to at least [2^23] units of
    its last place. *)
Lemma mantissa_lower q :
  0 <= Qnum q -> 0 < shift q ->
  2 ^ 23 <= nearest_even (Qnum q * 2 ^ 149) (Z.pos (Qden q) * 2 ^ shift q).
Proof.
  intros Hq Hs.
  assert (Hp : 0 < 2 ^ shift q) by (apply Z.pow_pos_nonneg; lia).
  assert (HD : 0 < Z.pos (Qden q) * 2 ^ shift q) by lia.
  rewrite <- (nearest_even_multiple (2 ^ 23) _ HD) at 1.
  apply nearest_even_mono; try assumption.
  assert (Hlog : shift q = Z.log2 (magnitude q) - 23)
    by (unfold shift in *; lia).
  assert (Hpos : 0 < magnitude q).
  { destruct (Z.eq_dec (magnitude q) 0) as [E|E].
    - rewrite E in Hlog. simpl in Hlog. lia.
    - pose proof (magnitude_nonneg q). lia. }
  pose proof (Z.log2_spec (magnitude q) Hpos) as [Hge _].
  replace (Z.log2 (magnitude q)) with (shift q + 23) in Hge by lia.
  rewrite Z.pow_add_r in Hge by lia.
  assert (Hm : magnitude q * Z.pos (Qden q) <= Qnum q * 2 ^ 149).
  { unfold magnitude. rewrite Z.abs_eq by assumption.
    pose proof (Z.mul_div_le (Qnum q * 2 ^ 149) (Z.pos (Qden q))
                  ltac:(lia)). lia. }
  set (n := Qnum q * 2 ^ 149) in *. set (S := 2 ^ shift q) in *.
  set (T := 2 ^ 23) in *. set (N := magnitude q) in *.
  set (d := Z.pos (Qden q)) in *.
  clearbody n S T N d.
  assert (T * (d * S) <= n) by nia.
  apply Z.mul_le_mono_nonneg_r; lia.
Qed.

Lemma units_mono_nonneg x y :
  0 <= Qnum x -> (x <= y)%Q -> units x <= units y.
Proof.
  intros Hx Hle.
  assert (Hy : 0 <= Qnum y) by (unfold Qle in Hle; nia).
  pose proof (shift_mono x y Hx Hle) as Hs.
  pose proof (shift_nonneg x) as Hsx.
  assert (Hpx : 0 < 2 ^ shift x) by (apply Z.pow_pos_nonneg; lia).
  assert (Hpy : 0 < 2 ^ shift y) by (apply Z.pow_pos_nonneg; lia).
  unfold units.
  destruct (Z.eq_dec (shift x) (shift y)) as [E|E].
  - rewrite E. apply Z.mul_le_mono_nonneg_r; [lia|].
    apply nearest_even_mono; try lia.
    unfold Qle in Hle.
    assert (0 < 2 ^ 149) by (apply Z.pow_pos_nonneg; lia). nia.
  - pose proof (mantissa_upper x Hx) as Hu.
    pose proof (mantissa_lower y Hy ltac:(lia)) as Hl.
    assert (Hpow : 2 ^ 24 * 2 ^ shift x <= 2 ^ 23 * 2 ^ shift y).
    { rewrite <- !Z.pow_add_r by lia. apply Z.pow_le_mono_r; lia. }
    nia.
Qed.

Lemma units_opp q : units (- q) = - units q.
Proof.
  unfold units, shift, magnitude. destruct q as [n d]. simpl.
  rewrite Z.abs_opp, Z.mul_opp_l, nearest_even_opp; [lia|].
  assert (0 < 2 ^ Z.max 0 (Z.log2 (Z.abs n * 2 ^ 149 / Z.pos d) - 23))
    by (apply Z.pow_pos_nonneg; lia).
  lia.
Qed.

Lemma units_sign q : (0 <= Qnum q -> 0 <= units q)
                     /\ (Qnum q <= 0 -> units q <= 0).
Proof.
  pose proof (shift_nonneg q) as Hs.
  assert (Hp : 0 < 2 ^ shift q) by (apply Z.pow_pos_nonneg; lia).
  assert (HD : 0 < Z.pos (Qden q) * 2 ^ shift q) by lia.
  assert (H0 : 0 < 2 ^ 149) by (apply Z.pow_pos_nonneg; lia).
  pose proof (nearest_even_multiple 0 _ HD) as Hz.
  rewrite Z.mul_0_l in Hz.
  unfold units. split; intros Hq.
  - assert (0 <= nearest_even (Qnum q * 2 ^ 149)
                   (Z.pos (Qden q) * 2 ^ shift q)); [|nia].
    apply Z.le_trans with (nearest_even 0 (Z.pos (Qden q) * 2 ^ shift q));
      [lia | apply nearest_even_mono; first [lia|nia]].
  - assert (nearest_even (Qnum q * 2 ^ 149)
              (Z.pos (Qden q) * 2 ^ shift q) <= 0); [|nia].
    apply Z.le_trans with (nearest_even 0 (Z.pos (Qden q) * 2 ^ shift q));
      [apply nearest_even_mono; first [lia|nia] | lia].
Qed.

(** Rounding keeps the order. *)
Lemma units_mono x y : (x <= y)%Q -> units x <= units y.
Proof.
  intros Hle.
  destruct (Z_le_gt_dec 0 (Qnum x)) as [Hx|Hx];
    [by apply units_mono_nonneg|].
  destruct (Z_le_gt_dec 0 (Qnum y)) as [Hy|Hy].
  - pose proof (proj2 (units_sign x) ltac:(lia)).
    pose proof (proj1 (units_sign y) Hy). lia.
  - assert (units (- y) <= units (- x)); [|rewrite !units_opp in *; lia].
    apply units_mono_nonneg; [simpl; lia|].
    by apply Qopp_le_compat.
Qed.

Lemma of_units_le u v : u <= v -> (of_units u <= of_units v)%Q.
Proof.
  intros H. unfold of_units. rewrite !Qred_correct.
  unfold Qle. simpl. nia.
Qed.

(** A number between two numbers that round to finite ones rounds to a
    finite one between them. *)
Lemma round_between lo hi q a b :
  (lo <= q)%Q -> (q <= hi)%Q ->
  round lo = Finite a -> round hi = Finite b ->
  exists v, round q = Finite v /\ (a <= v)%Q /\ (v <= b)%Q.
Proof.
  unfold round. intros Hlo Hhi.
  pose proof (units_mono _ _ Hlo) as H1.
  pose proof (units_mono _ _ Hhi) as H2.
  destruct (Z.leb_spec (2 ^ 277) (Z.abs (units lo))); [discriminate|].
  destruct (Z.leb_spec (2 ^ 277) (Z.abs (units hi))); [discriminate|].
  intros [= <-] [= <-].
  destruct (Z.leb_spec (2 ^ 277) (Z.abs (units q))); [lia|].
  eexists. split; [reflexivity|]. split; by apply of_units_le.
Qed.


Lemma round_within lo hi q a b :
  (lo <= q)%Q -> (q <= hi)%Q ->
  round lo = Finite a -> round hi = Finite b ->
  between a b (round q).
Proof. apply round_between. Qed.
(** A number within half a step below 1 rounds to 1. *)
Lemma round_near_one q :
  (1 - (1 # 33554432) <= q)%Q -> (q <= 1)%Q -> round q = Finite 1.
Proof.
  intros Hlo Hhi. apply units_mono in Hlo, Hhi.
  assert (units (1 - (1 # 33554432)) = units 1) as E
    by (vm_compute; reflexivity).
  assert (units q = units 1) as Hq by lia.
  unfold round. rewrite Hq. vm_compute. reflexivity.
Qed.
End Binary32Facts.

Lemma bounded_sin_range q : (-1 <= bounded_sin q)%Q ∧ (bounded_sin q <= 1)%Q.
Proof.
  unfold bounded_sin. split.
  - apply Q.le_max_l.
  - apply Q.max_lub; [done|apply Q.le_min_l].
Qed.

(** ** Running the program *)

Lemma append_empty (s : string) : s +:+ "" = s.
Proof.
  induction s as [|c s IH]; [done|].
  change (String c (s +:+ "") = String c s). by rewrite IH.
Qed.

Lemma truncate_length (n : nat) (s : string) :
  (String.length (truncate n s) ≤ n)%nat.
Proof.
  unfold truncate. revert s.
  induction n as [|n IH]; intros [|c s]; simpl; try lia.
  specialize (IH s). lia.
Qed.

Lemma truncate_prefix (n : nat) (s : string) :
  String.prefix (truncate n s) s = true.
Proof.
  unfold truncate. revert s.
  induction n as [|n IH]; intros [|c s]; simpl; try done.
  destruct (ascii_dec c c); [apply IH | done].
Qed.

Lemma machine_eq (m1 m2 : Machine) :
  window m1 = window m2 -> close_flag m1 = close_flag m2 ->
  polls m1 = polls m2 -> clock_reads m1 = clock_reads m2 ->
  next_object m1 = next_object m2 -> next_buffer m1 = next_buffer m2 ->
  next_array m1 = next_array m2 -> shaders m1 = shaders m2 ->
  programs m1 = programs m2 -> buffers m1 = buffers m2 ->
  arrays m1 = arrays m2 -> bound_array m1 = bound_array m2 ->
  bound_buffer m1 = bound_buffer m2 ->
  current_program m1 = current_program m2 ->
  clear_color m1 = clear_color m2 -> rendered m1 = rendered m2 ->
  created m1 = created m2 -> released m1 = released m2 ->
  stale_deletes m1 = stale_deletes m2 -> flagged m1 = flagged m2 ->
  m1 = m2.
Proof. destruct m1, m2; simpl; intros; by subst. Qed.

Section Steps.
Context (W : World).

Lemma bind_run {A B} (c : M A) (k : A -> M B) st a st1 r :
  c st = (a, st1) -> k a st1 = r -> bind c k st = r.
Proof. intros H1 H2. unfold bind. rewrite H1. exact H2. Qed.

Lemma void_run c m cs out :
  void W c {| machine := m; calls := cs; stdout := out |}
  = (tt, {| machine := (step W c m).2; calls := cs ++ [c];
            stdout := out |}).
Proof. reflexivity. Qed.

Lemma uint_run c m cs out :
  uint W c {| machine := m; calls := cs; stdout := out |}
  = (ret_uint (step W c m).1,
     {| machine := (step W c m).2; calls := cs ++ [c]; stdout := out |}).
Proof. reflexivity. Qed.

Lemma int_run c m cs out :
  int W c {| machine := m; calls := cs; stdout := out |}
  = (ret_int (step W c m).1,
     {| machine := (step W c m).2; calls := cs ++ [c]; stdout := out |}).
Proof. reflexivity. Qed.

Lemma double_run c m cs out :
  double W c {| machine := m; calls := cs; stdout := out |}
  = (ret_double (step W c m).1,
     {| machine := (step W c m).2; calls := cs ++ [c]; stdout := out |}).
Proof. reflexivity. Qed.

Lemma pointer_run c m cs out :
  pointer W c {| machine := m; calls := cs; stdout := out |}
  = (ret_pointer (step W c m).1,
     {| machine := (step W c m).2; calls := cs ++ [c]; stdout := out |}).
Proof. reflexivity. Qed.

Lemma cout_run s m cs out :
  cout s {| machine := m; calls := cs; stdout := out |}
  = (tt, {| machine := m; calls := cs; stdout := out +:+ s |}).
Proof. reflexivity. Qed.

(** [checkCompile] asks for the status, prints the caption and at most 511
    characters of the log when the status is failure, and returns; the
    machine is as before. *)
Lemma checkCompile_run shader m cs out :
  checkCompile W shader {| machine := m; calls := cs; stdout := out |}
  = (tt, {| machine := m;
            calls := cs ++ glGetShaderiv shader GL_COMPILE_STATUS
                       :: (if compiled m shader then []
                           else [glGetShaderInfoLog shader 512]);
            stdout := out +:+ (if compiled m shader then ""
                               else diagnostic "Shader compilation error:"
                                      (shader_log m shader)) |}).
Proof.
  unfold checkCompile, compiled, shader_log, bind, int, text, call, cout, ret.
  simpl.
  destruct (default false (sh_compiled <$> shaders m !! shader)); simpl.
  - by rewrite append_empty.
  - by rewrite <- app_assoc.
Qed.

Lemma checkLink_run program m cs out :
  checkLink W program {| machine := m; calls := cs; stdout := out |}
  = (tt, {| machine := m;
            calls := cs ++ glGetProgramiv program GL_LINK_STATUS
                       :: (if linked m program then []
                           else [glGetProgramInfoLog program 512]);
            stdout := out +:+ (if linked m program then ""
                               else diagnostic "Program linking error:"
                                      (program_log m program)) |}).
Proof.
  unfold checkLink, linked, program_log, bind, int, text, call, cout, ret.
  simpl.
  destruct (default false (pg_linked <$> programs m !! program)); simpl.
  - by rewrite append_empty.
  - by rewrite <- app_assoc.
Qed.
End Steps.

(** One statement of a straight-line piece of the program. *)
Ltac exec_step :=
  eapply bind_run;
  [first [apply uint_run | apply void_run | apply int_run | apply pointer_run
         | apply double_run | apply cout_run
         | apply checkCompile_run | apply checkLink_run]|].

Ltac split_bools :=
  repeat match goal with
         | |- context [if ?b then _ else _] => destruct b
         end.

Lemma state_eq (a b : State) :
  machine a = machine b -> calls a = calls b -> stdout a = stdout b -> a = b.
Proof. destruct a, b; simpl; intros; by subst. Qed.

(** The same statements with the machine's answer named, so that it can be
    computed on the spot. *)
Section Evaluated.
Context (W : World).

Lemma void_to c m m' cs out :
  (step W c m).2 = m' ->
  void W c {| machine := m; calls := cs; stdout := out |}
  = (tt, {| machine := m'; calls := cs ++ [c]; stdout := out |}).
Proof. by intros <-. Qed.

Lemma uint_to c m n m' cs out :
  ret_uint (step W c m).1 = n -> (step W c m).2 = m' ->
  uint W c {| machine := m; calls := cs; stdout := out |}
  = (n, {| machine := m'; calls := cs ++ [c]; stdout := out |}).
Proof. by intros <- <-. Qed.

Lemma int_to c m z m' cs out :
  ret_int (step W c m).1 = z -> (step W c m).2 = m' ->
  int W c {| machine := m; calls := cs; stdout := out |}
  = (z, {| machine := m'; calls := cs ++ [c]; stdout := out |}).
Proof. by intros <- <-. Qed.

Lemma pointer_to c m p m' cs out :
  ret_pointer (step W c m).1 = p -> (step W c m).2 = m' ->
  pointer W c {| machine := m; calls := cs; stdout := out |}
  = (p, {| machine := m'; calls := cs ++ [c]; stdout := out |}).
Proof. by intros <- <-. Qed.

Lemma checkCompile_to shader m b l cs out :
  compiled m shader = b -> shader_log m shader = l ->
  checkCompile W shader {| machine := m; calls := cs; stdout := out |}
  = (tt, {| machine := m;
            calls := cs ++ glGetShaderiv shader GL_COMPILE_STATUS
                       :: (if b then []
                           else [glGetShaderInfoLog shader 512]);
            stdout := out +:+ (if b then ""
                               else diagnostic "Shader compilation error:"
                                      l) |}).
Proof. intros <- <-. apply checkCompile_run. Qed.

Lemma checkLink_to program m b l cs out :
  linked m program = b -> program_log m program = l ->
  checkLink W program {| machine := m; calls := cs; stdout := out |}
  = (tt, {| machine := m;
            calls := cs ++ glGetProgramiv program GL_LINK_STATUS
                       :: (if b then []
                           else [glGetProgramInfoLog program 512]);
            stdout := out +:+ (if b then ""
                               else diagnostic "Program linking error:"
                                      l) |}).
Proof. intros <- <-. apply checkLink_run. Qed.
End Evaluated.

Ltac eval_step :=
  eapply bind_run;
  [first [eapply uint_to | eapply void_to | eapply int_to | eapply pointer_to
         | eapply checkCompile_to | eapply checkLink_to];
   vm_compute; reflexivity|].

(** *** From the first call to the head of the loop *)

Lemma startup_run W fuel :
  window_ok W = true -> loader_ok W = true ->
  main W fuel start = finish W fuel handles (ready W).
Proof.
  intros Hw Hl. destruct W; simpl in Hw, Hl; subst.
  unfold main, start.
  do 5 eval_step. cbn [negb].
  do 2 eval_step.
  destruct (decide (1 = 0)) as [?|_]; [done|].
  eapply bind_run; [unfold build_shaders; repeat eval_step; reflexivity|].
  eapply bind_run; [unfold upload_geometry; repeat eval_step; reflexivity|].
  match goal with
  | |- ?f ?st = finish ?w _ _ _ => transitivity (finish w fuel handles st)
  end.
  { reflexivity. }
  apply (f_equal (finish _ fuel handles)).
  apply state_eq.
  - vm_compute; reflexivity.
  - vm_compute; split_bools; reflexivity.
  - vm_compute; split_bools; reflexivity.
Qed.

(** Without a window [main] prints one line and returns -1 at once. *)
Lemma no_window_run W fuel :
  window_ok W = false ->
  main W fuel start
  = (Some (-1),
     {| machine := boot; calls := init_calls;
        stdout := "Failed to create GLFW window" +:+ endl |}).
Proof.
  intros Hw. destruct W; simpl in Hw; subst.
  unfold main, start.
  do 5 eval_step. cbn [negb].
  eapply bind_run; [apply cout_run|].
  unfold ret. f_equal.
Qed.

(** With a window but without the GL entry points [main] prints one line
    and returns -1 at once. *)
Lemma no_loader_run W fuel :
  window_ok W = true -> loader_ok W = false ->
  main W fuel start
  = (Some (-1),
     {| machine := set_window boot true;
        calls := init_calls ++ [glfwMakeContextCurrent; gladLoadGLLoader];
        stdout := "Failed to init GLAD" +:+ endl |}).
Proof.
  intros Hw Hl. destruct W; simpl in Hw, Hl; subst.
  unfold main, start.
  do 5 eval_step. cbn [negb].
  do 2 eval_step.
  destruct (decide (0 = 0)) as [_|?]; [|done].
  eapply bind_run; [apply cout_run|].
  unfold ret. f_equal.
Qed.

(** *** The output of a sequence of calls *)

Section Output.
Context (W : World).

Lemma forget_rendered o m : rendered (forget o m) = rendered m.
Proof. by destruct o as [[] n]. Qed.

Lemma sweep_rendered k m : rendered (sweep k m) = rendered m.
Proof.
  unfold sweep. induction (doomed k m) as [|o l IH]; simpl; [done|].
  by rewrite forget_rendered.
Qed.

Lemma collect_rendered m : rendered (collect m) = rendered m.
Proof. unfold collect. by rewrite !sweep_rendered. Qed.

Lemma unbind_rendered o m : rendered (unbind o m) = rendered m.
Proof.
  destruct o as [[] n]; unfold unbind; simpl; try done.
  by destruct (decide (bound_array m = n)).
Qed.

Lemma release_rendered o m : rendered (release o m) = rendered m.
Proof.
  unfold release. destruct (is_live o m); [|done].
  rewrite collect_rendered. cbn [rendered set_flagged].
  by rewrite unbind_rendered.
Qed.

Lemma use_program_rendered program m :
  rendered (use_program program m) = rendered m.
Proof.
  unfold use_program.
  destruct (decide (program = 0%N)); [by rewrite collect_rendered|].
  destruct (default false (pg_linked <$> programs m !! program));
    [by rewrite collect_rendered|done].
Qed.

Lemma release_all_rendered k names m :
  rendered (release_all k names m) = rendered m.
Proof.
  unfold release_all. revert m.
  induction names as [|n names IH]; intros m; simpl; [done|].
  by rewrite IH, release_rendered.
Qed.

Lemma step_rendered c m :
  rendered (step W c m).2 = rendered m ++ emitted c m.
Proof.
  destruct c;
    repeat match goal with
           | x : ShaderParam |- _ => destruct x
           | x : ProgramParam |- _ => destruct x
           | x : BufferTarget |- _ => destruct x
           | x : ClearMask |- _ => destruct x
           end;
    cbn [emitted]; rewrite ?app_nil_r; try reflexivity;
    first [apply release_rendered | apply release_all_rendered
          | apply use_program_rendered].
Qed.

Lemma replay_nil m : replay W [] m = m.
Proof. reflexivity. Qed.

Lemma replay_cons c cs m : replay W (c :: cs) m = replay W cs (step W c m).2.
Proof. reflexivity. Qed.

Lemma replay_app cs1 cs2 m :
  replay W (cs1 ++ cs2) m = replay W cs2 (replay W cs1 m).
Proof. unfold replay. apply foldl_app. Qed.

Lemma replay_rendered cs m :
  rendered (replay W cs m) = rendered m ++ output W cs m.
Proof.
  revert m. induction cs as [|c cs IH]; intros m.
  - simpl. by rewrite app_nil_r.
  - rewrite replay_cons, IH, step_rendered, <- app_assoc. done.
Qed.
End Output.

(** *** The render loop *)

(** The value written to the uniform is kept apart while a frame is
    evaluated: it does not matter which number it is. *)
Ltac frame_eval k :=
  destruct k;
  unfold frame_calls, frame_output, flat_draw, wave_draw, draw_with,
    first_program, final_machine, loop_machine, programs_after,
    program_in_use, flat_program, wave_program;
  cbn [uniforms_after]; unfold time_location;
  repeat match goal with
         | |- context [float_of_double (clock ?w ?j)] =>
             generalize (float_of_double (clock w j)); intros ?
         | |- context [uniforms_after ?w ?j] =>
             generalize (uniforms_after w j); intros ?
         | |- context [flat_map (frame_output ?w) ?l] =>
             generalize (flat_map (frame_output w) l); intros ?
         end;
  match goal with
  | W : World |- _ =>
      destruct (link_ok W (flat_stages W)), (link_ok W (wave_stages W))
  end;
  try discriminate;
  vm_compute; reflexivity.

Section Loop.
Context (W : World).

Lemma flag_after_S k :
  flag_after W (S k) = flag_after W k || close_request W k.
Proof.
  unfold flag_after. rewrite seq_S, existsb_app. simpl.
  by rewrite orb_false_r.
Qed.

Lemma loop_calls_S k :
  loop_calls W (S k)
  = loop_calls W k ++ glfwWindowShouldClose :: frame_calls W k.
Proof.
  unfold loop_calls. rewrite seq_S, flat_map_app. simpl.
  by rewrite ?app_nil_r.
Qed.

Lemma rendered_S k :
  flat_map (frame_output W) (seq 0 (S k))
  = flat_map (frame_output W) (seq 0 k) ++ frame_output W k.
Proof. rewrite seq_S, flat_map_app. simpl. by rewrite ?app_nil_r. Qed.

(** One iteration issues exactly these calls, in this order, whatever the
    machine. *)
Lemma frame_exec h m cs out :
  render_frame W h {| machine := m; calls := cs; stdout := out |}
  = (tt, {| machine := replay W (frame_calls_at W h m) m;
            calls := cs ++ frame_calls_at W h m; stdout := out |}).
Proof.
  unfold render_frame.
  do 6 exec_step.
  eapply bind_run. { eapply bind_run; [apply double_run | reflexivity]. }
  do 4 exec_step.
  rewrite void_run, <- !app_assoc. reflexivity.
Qed.

Lemma frame_emits k :
  output W (frame_calls W k) (loop_machine W k) = frame_output W k.
Proof. frame_eval k. Qed.

Lemma frame_machine k :
  replay W (frame_calls W k) (loop_machine W k) = loop_machine W (S k).
Proof.
  apply machine_eq.
  16: { rewrite replay_rendered.
        etransitivity; [|symmetry; apply rendered_S].
        apply (f_equal (app _)). apply frame_emits. }
  2: { etransitivity; [|symmetry; apply flag_after_S]. frame_eval k. }
  all: frame_eval k.
Qed.

Lemma frame_run k cs out :
  render_frame W handles
    {| machine := loop_machine W k; calls := cs; stdout := out |}
  = (tt, {| machine := loop_machine W (S k);
            calls := cs ++ frame_calls W k; stdout := out |}).
Proof.
  rewrite frame_exec.
  assert (linked (replay W (frame_prelude handles) (loop_machine W k))
            (waveShader handles) = link_ok W (wave_stages W)) as Hlinked
    by frame_eval k.
  assert (clock_reads (replay W (frame_prelude handles) (loop_machine W k))
          = k) as Hreads
    by frame_eval k.
  replace (frame_calls_at W handles (loop_machine W k))
  with (frame_calls W k)
    by (unfold frame_calls_at; cbv zeta; by rewrite Hlinked, Hreads).
  by rewrite frame_machine.
Qed.

Lemma loop_run fuel k out :
  render_loop W fuel handles
    {| machine := loop_machine W k;
       calls := startup_calls W ++ loop_calls W k; stdout := out |}
  = (leaves W fuel k,
     {| machine := loop_machine W (iterations W fuel k);
        calls := startup_calls W ++ loop_calls W (iterations W fuel k)
                 ++ (if leaves W fuel k then [glfwWindowShouldClose]
                     else []);
        stdout := out |}).
Proof.
  revert k. induction fuel as [|fuel IH]; intros k.
  - simpl. unfold ret. by rewrite app_nil_r.
  - cbn [render_loop iterations leaves].
    eapply bind_run; [apply int_run|].
    change (ret_int (step W glfwWindowShouldClose (loop_machine W k)).1)
      with (Z.b2z (flag_after W k)).
    change (step W glfwWindowShouldClose (loop_machine W k)).2
      with (loop_machine W k).
    destruct (flag_after W k); simpl Z.b2z.
    + destruct (decide (1 = 0)) as [?|_]; [done|].
      unfold ret. by rewrite <- app_assoc.
    + destruct (decide (0 = 0)) as [_|?]; [|done].
      eapply bind_run; [apply frame_run|].
      rewrite <- IH. f_equal. f_equal.
      by rewrite loop_calls_S, <- !app_assoc.
Qed.

Lemma cleanup_exec m cs out :
  cleanup W handles {| machine := m; calls := cs; stdout := out |}
  = (tt, {| machine := replay W cleanup_calls m;
            calls := cs ++ cleanup_calls; stdout := out |}).
Proof.
  unfold cleanup.
  do 5 exec_step.
  rewrite void_run, <- !app_assoc. reflexivity.
Qed.

Lemma cleanup_machine k :
  replay W cleanup_calls (loop_machine W k) = final_machine W k.
Proof. apply machine_eq; frame_eval k. Qed.

(** A whole run with a window and a loader: the result, the machine, the
    calls and the output after [fuel] evaluations of the loop condition at
    most. *)
Lemma main_run fuel :
  window_ok W = true -> loader_ok W = true ->
  main W fuel start
  = (if leaves W fuel 0 then Some 0 else None,
     {| machine := if leaves W fuel 0
                   then final_machine W (iterations W fuel 0)
                   else loop_machine W (iterations W fuel 0);
        calls := startup_calls W ++ loop_calls W (iterations W fuel 0)
                 ++ (if leaves W fuel 0
                     then glfwWindowShouldClose :: cleanup_calls else []);
        stdout := startup_output W |}).
Proof.
  intros Hw Hl. rewrite startup_run by done.
  unfold finish, ready.
  eapply bind_run.
  { rewrite <- (app_nil_r (startup_calls W)) at 1. apply (loop_run fuel 0). }
  destruct (leaves W fuel 0).
  - eapply bind_run; [apply cleanup_exec|].
    unfold ret. rewrite cleanup_machine. f_equal. f_equal.
    by rewrite <- !app_assoc.
  - done.
Qed.
End Loop.

(** *** The machine is the replay of the calls *)

Create HintDb consistency.

Lemma start_consistent W : consistent W start.
Proof. reflexivity. Qed.

Lemma preserves_ret W {A} (a : A) : preserves W (ret a).
Proof. by intros st. Qed.

Lemma preserves_bind W {A B} (c : M A) (k : A -> M B) :
  preserves W c -> (∀ a, preserves W (k a)) -> preserves W (bind c k).
Proof.
  intros Hc Hk st Hst. unfold bind.
  specialize (Hc st Hst). destruct (c st) as [a st']. by apply Hk.
Qed.

Lemma preserves_call W c : preserves W (call W c).
Proof.
  intros st Hst. unfold consistent in *. simpl.
  by rewrite replay_app, <- Hst.
Qed.

Lemma preserves_cout W s : preserves W (cout s).
Proof. by intros st. Qed.

Ltac preserve :=
  repeat match goal with
         | |- preserves _ (ret _) => apply preserves_ret
         | |- preserves _ (call _ _) => apply preserves_call
         | |- preserves _ (cout _) => apply preserves_cout
         | |- preserves _ (bind _ _) => apply preserves_bind; [|intros ?]
         | |- preserves _ (if ?b then _ else _) => destruct b
         | |- preserves _ (let _ := _ in _) => cbv zeta
         | |- preserves _ _ => solve [auto with consistency]
         end.

Lemma preserves_void W c : preserves W (void W c).
Proof. unfold void. preserve. Qed.

Lemma preserves_int W c : preserves W (int W c).
Proof. unfold int. preserve. Qed.

Lemma preserves_uint W c : preserves W (uint W c).
Proof. unfold uint. preserve. Qed.

Lemma preserves_double W c : preserves W (double W c).
Proof. unfold double. preserve. Qed.

Lemma preserves_pointer W c : preserves W (pointer W c).
Proof. unfold pointer. preserve. Qed.

Lemma preserves_text W c : preserves W (text W c).
Proof. unfold text. preserve. Qed.

#[global] Hint Resolve preserves_void preserves_int preserves_uint
  preserves_double preserves_pointer preserves_text : consistency.

Lemma preserves_checkCompile W shader : preserves W (checkCompile W shader).
Proof. unfold checkCompile. preserve. Qed.

Lemma preserves_checkLink W program : preserves W (checkLink W program).
Proof. unfold checkLink. preserve. Qed.

#[global] Hint Resolve preserves_checkCompile preserves_checkLink
  : consistency.

Lemma preserves_build_shaders W : preserves W (build_shaders W).
Proof. unfold build_shaders. preserve. Qed.

Lemma preserves_upload_geometry W : preserves W (upload_geometry W).
Proof. unfold upload_geometry. preserve. Qed.

Lemma preserves_render_frame W h : preserves W (render_frame W h).
Proof. unfold render_frame. preserve. Qed.

Lemma preserves_cleanup W h : preserves W (cleanup W h).
Proof. unfold cleanup. preserve. Qed.

#[global] Hint Resolve preserves_build_shaders preserves_upload_geometry
  preserves_render_frame preserves_cleanup : consistency.

Lemma preserves_render_loop W fuel h : preserves W (render_loop W fuel h).
Proof. induction fuel as [|fuel IH]; simpl; preserve. Qed.

#[global] Hint Resolve preserves_render_loop : consistency.

Lemma preserves_main W fuel : preserves W (main W fuel).
Proof. unfold main. preserve. Qed.

(** At every point the machine of a run is the replay of its calls. *)
Lemma main_consistent W fuel : consistent W (main W fuel start).2.
Proof. apply preserves_main, start_consistent. Qed.
(** *** How long the loop runs *)

Lemma iterations_range W fuel k :
  (k ≤ iterations W fuel k ≤ k + fuel)%nat.
Proof.
  revert k. induction fuel as [|fuel IH]; intros k; simpl; [lia|].
  destruct (flag_after W k); [lia|]. specialize (IH (S k)). lia.
Qed.


(** The loop is left only on a close request. *)
Lemma leaves_flag W fuel k :
  leaves W fuel k = true -> flag_after W (iterations W fuel k) = true.
Proof.
  revert k. induction fuel as [|fuel IH]; intros k; simpl; [done|].
  destruct (flag_after W k) eqn:Hk; [done|]. apply IH.
Qed.


Lemma flag_after_true W j :
  flag_after W j = true <-> ∃ i, (i < j)%nat ∧ close_request W i = true.
Proof.
  unfold flag_after. rewrite existsb_exists. split.
  - intros (i & Hi & Hc). apply in_seq in Hi. exists i. split; [lia|done].
  - intros (i & Hi & Hc). exists i. split; [apply in_seq; lia|done].
Qed.

Lemma flag_after_false W j :
  flag_after W j = false <-> ∀ i, (i < j)%nat -> close_request W i = false.
Proof.
  rewrite <- not_true_iff_false, flag_after_true. split.
  - intros H i Hi. destruct (close_request W i) eqn:E; [|done].
    destruct H. eauto.
  - intros H (i & Hi & Hc). rewrite H in Hc by done. done.
Qed.

(** When the first close request comes with the [n]-th event pump, the loop
    runs [n + 1] iterations and is left, given fuel for [n + 2]
    evaluations of its condition. *)
Lemma iterations_first_close W fuel n :
  (∀ i, (i < n)%nat -> close_request W i = false) ->
  close_request W n = true ->
  (n + 2 ≤ fuel)%nat ->
  iterations W fuel 0 = S n ∧ leaves W fuel 0 = true.
Proof.
  intros Hbefore Hn Hfuel.
  assert (Hflag : ∀ j, flag_after W j = true <-> (n < j)%nat).
  { intros j. rewrite flag_after_true. split.
    - intros (i & Hi & Hc).
      destruct (decide (i < n)%nat) as [Hlt|?]; [|lia].
      rewrite Hbefore in Hc by done. done.
    - intros Hj. eauto. }
  assert (Hgen : ∀ fuel k, (k ≤ S n)%nat -> (S n - k < fuel)%nat ->
            iterations W fuel k = S n ∧ leaves W fuel k = true).
  { clear fuel Hfuel. induction fuel as [|fuel IH]; intros k Hk Hf; [lia|].
    simpl. destruct (flag_after W k) eqn:E.
    - apply Hflag in E. split; [lia|done].
    - assert (k ≤ n)%nat.
      { destruct (decide (n < k)%nat) as [Hlt|?]; [|lia].
        apply Hflag in Hlt. congruence. }
      apply IH; lia. }
  apply Hgen; lia.
Qed.

(** *** The machine along the calls of a run *)

Lemma replay_startup W :
  window_ok W = true -> loader_ok W = true ->
  replay W (startup_calls W) boot = loop_machine W 0.
Proof.
  intros Hw Hl. pose proof (main_consistent W 0) as H.
  rewrite main_run in H by done. unfold consistent in H. simpl in H.
  by rewrite app_nil_r in H.
Qed.



(** *** What a run draws *)

Lemma main_rendered W fuel :
  window_ok W = true -> loader_ok W = true ->
  rendered (machine (main W fuel start).2)
  = flat_map (frame_output W) (seq 0 (iterations W fuel 0)).
Proof.
  intros Hw Hl. rewrite main_run by done. simpl.
  by destruct (leaves W fuel 0).
Qed.

Lemma frames_draws W n d :
  Drawn d ∈ flat_map (frame_output W) (seq 0 n) ->
  ∃ k, (k < n)%nat ∧ (d = flat_draw W k ∨ d = wave_draw W k).
Proof.
  rewrite list_elem_of_In, in_flat_map. intros (k & Hk & Hd).
  apply in_seq in Hk. simpl in Hd. exists k. split; [lia|].
  destruct Hd as [Hd|[Hd|[Hd|[Hd|[]]]]]; try discriminate.
  - left. congruence.
  - right. congruence.
Qed.


Lemma wave_draw_indices W k :
  dr_indices (wave_draw W k) = Some (drop 6 indices).
Proof. reflexivity. Qed.

Lemma first_draws W n d :
  Drawn d ∈ flat_map (frame_output W) (seq 0 n) ->
  dr_indices d = Some (take 6 indices) ->
  ∃ k, (k < n)%nat ∧ d = flat_draw W k.
Proof.
  intros Hd Hi. apply frames_draws in Hd as (k & Hk & [-> | ->]).
  - eauto.
  - rewrite wave_draw_indices in Hi. discriminate.
Qed.


(** With the flat program linked the first draw of every iteration is made
    with it. *)
Lemma flat_draw_linked W k :
  link_ok W (flat_stages W) = true ->
  flat_draw W k
  = {| dr_program := normalShader handles;
       dr_fragment := Some normalFragSource;
       dr_uniforms := ∅;
       dr_array := VAO handles;
       dr_indices := Some (take 6 indices) |}.
Proof.
  intros H. unfold flat_draw, draw_with, first_program, programs_after,
    flat_program.
  rewrite H. reflexivity.
Qed.



(** *** The uniform writes of a run *)








(** *** Diagnostics *)

Lemma diagnostic_bounded caption log :
  ∃ text, diagnostic caption log = caption +:+ endl +:+ text +:+ endl
          ∧ (String.length text < 512)%nat
          ∧ String.prefix text log = true.
Proof.
  exists (truncate 511 log). split; [done|]. split.
  - pose proof (truncate_length 511 log). lia.
  - apply truncate_prefix.
Qed.

Lemma flag_after_ext W W' k :
  (∀ i, close_request W' i = close_request W i) ->
  flag_after W' k = flag_after W k.
Proof.
  intros H. unfold flag_after.
  induction (seq 0 k) as [|i l IH]; simpl; [done|]. by rewrite H, IH.
Qed.

Lemma leaves_ext W W' fuel k :
  (∀ i, close_request W' i = close_request W i) ->
  leaves W' fuel k = leaves W fuel k
  ∧ iterations W' fuel k = iterations W fuel k.
Proof.
  intros H. revert k. induction fuel as [|fuel IH]; intros k; simpl; [done|].
  rewrite (flag_after_ext W W') by done.
  destruct (flag_after W k); [done|]. apply IH.
Qed.

(** *** Exit codes *)

Lemma leaves_iff W fuel k :
  leaves W fuel k = true
  <-> ∃ j, (k ≤ j < k + fuel)%nat ∧ flag_after W j = true.
Proof.
  revert k. induction fuel as [|fuel IH]; intros k; simpl.
  - split; [done|]. intros (j & ? & _). lia.
  - destruct (flag_after W k) eqn:E.
    + split; [|done]. intros _. exists k. split; [lia|done].
    + rewrite IH. split; intros (j & Hj & Hf).
      * exists j. split; [lia|done].
      * exists j. split; [|done].
        destruct (decide (j = k)) as [->|?]; [congruence|lia].
Qed.

Lemma main_result W fuel :
  (main W fuel start).1
  = if window_ok W && loader_ok W
    then if leaves W fuel 0 then Some 0 else None
    else Some (-1).
Proof.
  destruct (window_ok W) eqn:Hw; [destruct (loader_ok W) eqn:Hl|].
  - by rewrite main_run.
  - by rewrite no_loader_run.
  - by rewrite no_window_run.
Qed.

Lemma main_close_flag W fuel :
  (main W fuel start).1 = Some 0 ->
  close_flag (machine (main W fuel start).2) = true.
Proof.
  rewrite main_result.
  destruct (window_ok W) eqn:Hw; [destruct (loader_ok W) eqn:Hl|]; try done.
  rewrite main_run by done. simpl.
  destruct (leaves W fuel 0) eqn:E; [|done].
  intros _. simpl. by apply leaves_flag.
Qed.

(** *** Releasing the objects *)

Lemma loop_no_delete W n : List.filter is_delete (loop_calls W n) = [].
Proof.
  induction n as [|n IH]; [done|].
  by rewrite loop_calls_S, List.filter_app, IH.
Qed.

Lemma startup_deletes W :
  List.filter is_delete (startup_calls W)
  = [glDeleteShader vertexShader; glDeleteShader normalFrag;
     glDeleteShader waveFrag].
Proof.
  unfold startup_calls, shader_calls, compile_calls, link_calls.
  split_bools; reflexivity.
Qed.

Lemma final_released W n :
  released (final_machine W n) ≡ₚ created (final_machine W n)
  ∧ NoDup (released (final_machine W n)).
Proof.
  split.
  - simpl. do 3 apply perm_skip.
    apply (Permutation_app_comm [_; _; _] [_; _]).
  - apply (bool_decide_unpack _). vm_compute. reflexivity.
Qed.

(** *** The geometry *)

Lemma forget_flagged o m : flagged (forget o m) = flagged m.
Proof. by destruct o as [[] n]. Qed.

Lemma forget_buffers o m :
  o.1 ≠ KBuffer -> buffers (forget o m) = buffers m.
Proof. by destruct o as [[] n]. Qed.

Lemma forget_all_flagged l m : flagged (foldr forget m l) = flagged m.
Proof.
  induction l as [|o l IH]; simpl; [done|]. by rewrite forget_flagged.
Qed.

Lemma forget_all_buffers l m :
  Forall (λ o : Obj, o.1 ≠ KBuffer) l ->
  buffers (foldr forget m l) = buffers m.
Proof.
  induction 1 as [|o l Ho _ IH]; simpl; [done|].
  by rewrite forget_buffers.
Qed.

Lemma Forall_filter_keep {A} (P : A -> Prop) (f : A -> bool) (l : list A) :
  Forall P l -> Forall P (List.filter f l).
Proof.
  induction 1 as [|x l Hx _ IH]; simpl; [constructor|].
  destruct (f x); [by constructor|done].
Qed.

Lemma sweep_settled k m : buffers_settled m -> buffers_settled (sweep k m).
Proof.
  unfold buffers_settled, sweep. intros H.
  rewrite forget_all_flagged. cbn [flagged set_flagged].
  by apply Forall_filter_keep.
Qed.

Lemma sweep_buffers k m :
  buffers_settled m -> buffers (sweep k m) = buffers m.
Proof.
  intros H. unfold sweep. rewrite forget_all_buffers; [done|].
  by apply Forall_filter_keep.
Qed.

Lemma collect_settled m : buffers_settled m -> buffers_settled (collect m).
Proof. intros H. unfold collect. by do 3 apply sweep_settled. Qed.

Lemma collect_buffers m :
  buffers_settled m -> buffers (collect m) = buffers m.
Proof.
  intros H. unfold collect.
  rewrite !sweep_buffers; auto using sweep_settled.
Qed.

Lemma unbind_flagged o m : flagged (unbind o m) = flagged m.
Proof.
  destruct o as [[] n]; unfold unbind; simpl; try done.
  by destruct (decide (bound_array m = n)).
Qed.

Lemma unbind_buffers o m : buffers (unbind o m) = buffers m.
Proof.
  destruct o as [[] n]; unfold unbind; simpl; try done.
  by destruct (decide (bound_array m = n)).
Qed.

Lemma release_settled o m :
  o.1 ≠ KBuffer -> buffers_settled m -> buffers_settled (release o m).
Proof.
  intros Hk H. unfold release. destruct (is_live o m); [|done].
  apply collect_settled. unfold buffers_settled.
  cbn [flagged set_flagged]. apply Forall_app. split; [done|].
  by constructor.
Qed.

Lemma release_buffers o m :
  o.1 ≠ KBuffer -> buffers_settled m -> buffers (release o m) = buffers m.
Proof.
  intros Hk H. unfold release. destruct (is_live o m); [|done].
  rewrite collect_buffers.
  - cbn [buffers set_flagged]. by rewrite unbind_buffers.
  - unfold buffers_settled. cbn [flagged set_flagged].
    apply Forall_app. split; [done|]. by constructor.
Qed.

Lemma release_all_quiet k names m :
  k ≠ KBuffer -> buffers_settled m ->
  buffers (release_all k names m) = buffers m
  ∧ buffers_settled (release_all k names m).
Proof.
  intros Hk. unfold release_all. revert m.
  induction names as [|n names IH]; intros m H; simpl; [done|].
  destruct (IH (release (k, n) m)) as [-> ?];
    [by apply release_settled|].
  by rewrite release_buffers.
Qed.

Lemma use_program_quiet program m :
  buffers_settled m ->
  buffers (use_program program m) = buffers m
  ∧ buffers_settled (use_program program m).
Proof.
  intros H. unfold use_program.
  destruct (decide (program = 0%N)).
  { split; [by rewrite collect_buffers|by apply collect_settled]. }
  destruct (default false (pg_linked <$> programs m !! program)); [|done].
  split; [by rewrite collect_buffers|by apply collect_settled].
Qed.

(** A call that is not about buffers leaves them alone, as long as no
    buffer is waiting to be deleted. *)
Lemma step_quiet W c m :
  touches_buffers c = false -> buffers_settled m ->
  buffers (step W c m).2 = buffers m ∧ buffers_settled (step W c m).2.
Proof.
  destruct c; try discriminate; intros _ H;
    repeat match goal with
           | x : ShaderParam |- _ => destruct x
           | x : ProgramParam |- _ => destruct x
           | x : BufferTarget |- _ => destruct x
           | x : ClearMask |- _ => destruct x
           end;
    try (split; [reflexivity|exact H]);
    first [ by apply use_program_quiet
          | by apply release_all_quiet
          | split; [by apply release_buffers|by apply release_settled] ].
Qed.

Lemma replay_quiet W cs m :
  Forall (λ c, touches_buffers c = false) cs -> buffers_settled m ->
  buffers (replay W cs m) = buffers m ∧ buffers_settled (replay W cs m).
Proof.
  intros H. revert m. induction H as [|c cs Hc _ IH]; intros m Hm; [done|].
  rewrite replay_cons.
  destruct (step_quiet W c m Hc Hm) as [<- Hm']. by apply IH.
Qed.

Lemma replay_buffers W cs m :
  Forall (λ c, touches_buffers c = false) cs -> buffers_settled m ->
  buffers (replay W cs m) = buffers m.
Proof. intros H Hm. by apply replay_quiet. Qed.

(** A prefix that contains an element occurring once in the list contains
    everything before it; one that does not contain it stops before it. *)
Lemma prefix_through {A} (p l1 l2 : list A) (x : A) :
  p `prefix_of` l1 ++ x :: l2 -> x ∈ p -> x ∉ l1 ->
  ∃ q, p = l1 ++ x :: q ∧ q `prefix_of` l2.
Proof.
  revert p. induction l1 as [|y l1 IH]; intros p Hp Hin Hnot.
  - destruct p as [|z p]; [by apply elem_of_nil in Hin|].
    simpl in Hp. apply prefix_cons_inv_1 in Hp as Hz. subst z.
    apply prefix_cons_inv_2 in Hp. eauto.
  - destruct p as [|z p]; [by apply elem_of_nil in Hin|].
    simpl in Hp. apply prefix_cons_inv_1 in Hp as Hz. subst z.
    apply prefix_cons_inv_2 in Hp.
    apply not_elem_of_cons in Hnot as [Hne Hnot].
    apply elem_of_cons in Hin as [?|Hin]; [done|].
    destruct (IH p Hp Hin Hnot) as (q & -> & Hq). eauto.
Qed.

Lemma prefix_before {A} (q l1 l2 : list A) (x : A) :
  q `prefix_of` l1 ++ x :: l2 -> x ∉ q -> q `prefix_of` l1.
Proof.
  revert q. induction l1 as [|y l1 IH]; intros q Hq Hnot.
  - destruct q as [|z q]; [done|].
    simpl in Hq. apply prefix_cons_inv_1 in Hq as ->.
    destruct Hnot. by left.
  - destruct q as [|z q]; [apply prefix_nil|].
    simpl in Hq. apply prefix_cons_inv_1 in Hq as Hz. subst z.
    apply prefix_cons_inv_2 in Hq.
    apply not_elem_of_cons in Hnot as [_ Hnot].
    apply prefix_cons. by apply IH.
Qed.

Lemma Forall_prefix {A} (P : A -> Prop) (q l : list A) :
  q `prefix_of` l -> Forall P l -> Forall P q.
Proof. intros [k ->] H. by apply Forall_app in H as [? _]. Qed.

Lemma forallb_not_elem {A} (f : A -> bool) (l : list A) (x : A) :
  forallb (λ y, negb (f y)) l = true -> f x = true -> x ∉ l.
Proof.
  intros Hl Hx Hin. apply list_elem_of_In in Hin.
  rewrite forallb_forall in Hl. specialize (Hl x Hin). by rewrite Hx in Hl.
Qed.

Lemma startup_split W :
  startup_calls W = before_upload W ++ index_upload :: after_upload.
Proof.
  unfold startup_calls, before_upload. by rewrite <- !app_assoc.
Qed.

Lemma before_upload_no_index W : index_upload ∉ before_upload W.
Proof.
  apply (forallb_not_elem
           (λ c, match c with
                 | glBufferData GL_ELEMENT_ARRAY_BUFFER _ _ _ => true
                 | _ => false
                 end)); [|done].
  unfold before_upload, shader_calls, compile_calls, link_calls.
  split_bools; reflexivity.
Qed.

Lemma frame_quiet W k :
  Forall (λ c, touches_buffers c = false) (frame_calls W k).
Proof. unfold frame_calls. repeat constructor. Qed.

Lemma loop_quiet W n :
  Forall (λ c, touches_buffers c = false) (loop_calls W n).
Proof.
  induction n as [|n IH]; [constructor|].
  rewrite loop_calls_S. apply Forall_app. split; [done|].
  constructor; [done|apply frame_quiet].
Qed.

Lemma after_upload_quiet :
  Forall (λ c, touches_buffers c = false) after_upload.
Proof. unfold after_upload. simpl. repeat constructor. Qed.

(** A call other than [glDeleteBuffers] flags no buffer. *)
Lemma step_settled W c m :
  (∀ names, c ≠ glDeleteBuffers names) ->
  buffers_settled m -> buffers_settled (step W c m).2.
Proof.
  intros Hc H.
  destruct (touches_buffers c) eqn:Ht; [|by apply step_quiet].
  destruct c; try discriminate; try exact H.
  - by destruct (Hc buffers0).
  - constructor.
Qed.

Lemma replay_settled W cs m :
  Forall (λ c, ∀ names, c ≠ glDeleteBuffers names) cs ->
  buffers_settled m -> buffers_settled (replay W cs m).
Proof.
  intros H. revert m. induction H as [|c cs Hc _ IH]; intros m Hm; [done|].
  rewrite replay_cons. by apply IH, step_settled.
Qed.

Lemma no_buffer_delete (cs : list Call) :
  forallb (λ c, match c with glDeleteBuffers _ => false | _ => true end) cs
  = true ->
  Forall (λ c, ∀ names, c ≠ glDeleteBuffers names) cs.
Proof.
  rewrite forallb_forall, Forall_forall. intros H c Hc names ->.
  apply list_elem_of_In in Hc. by apply H in Hc.
Qed.

Lemma upload_settled W :
  buffers_settled (replay W (before_upload W ++ [index_upload]) boot).
Proof.
  apply replay_settled; [|constructor].
  apply no_buffer_delete.
  unfold before_upload, shader_calls, compile_calls, link_calls.
  split_bools; reflexivity.
Qed.

Lemma uploaded_buffers W :
  window_ok W = true -> loader_ok W = true ->
  buffers (replay W (before_upload W ++ [index_upload]) boot)
  = buffers (loop_machine W 0).
Proof.
  intros Hw Hl. rewrite <- (replay_startup W) by done.
  rewrite startup_split.
  replace (before_upload W ++ index_upload :: after_upload)
    with ((before_upload W ++ [index_upload]) ++ after_upload)
    by (by rewrite <- app_assoc).
  rewrite (replay_app W (before_upload W ++ [index_upload]) after_upload).
  symmetry. apply replay_buffers; [apply after_upload_quiet|].
  apply upload_settled.
Qed.

Lemma loop_no_upload W n : List.filter is_upload (loop_calls W n) = [].
Proof.
  induction n as [|n IH]; [done|].
  by rewrite loop_calls_S, List.filter_app, IH.
Qed.

Lemma startup_uploads W :
  List.filter is_upload (startup_calls W) = [vertex_upload; index_upload].
Proof.
  unfold startup_calls, shader_calls, compile_calls, link_calls.
  split_bools; reflexivity.
Qed.

(** * The claims *)



(** C2.  The index array has exactly 12 entries, all in [0, 7]; the first
    six (quad 1) are among 0, 1, 2, 3 and the last six (quad 2) among
    4, 5, 6, 7, so that no vertex belongs to both quads. *)
Theorem indices_partition :
  length indices = 12%nat
  ∧ Forall (λ i, (0 ≤ i ≤ 7)%N) indices
  ∧ Forall (λ i, i ∈ [0; 1; 2; 3]%N) (take 6 indices)
  ∧ Forall (λ i, i ∈ [4; 5; 6; 7]%N) (drop 6 indices)
  ∧ take 6 indices ++ drop 6 indices = indices
  ∧ (∀ i, i ∈ take 6 indices -> i ∉ drop 6 indices).
Proof.
  split; [reflexivity|].
  split; [unfold indices; repeat constructor; lia|].
  split.
  { unfold indices; simpl.
    repeat constructor; apply list_elem_of_In; simpl; lia. }
  split.
  { unfold indices; simpl.
    repeat constructor; apply list_elem_of_In; simpl; lia. }
  split; [reflexivity|].
  unfold indices; simpl. intros i Hi Hd.
  apply list_elem_of_In in Hi, Hd. simpl in Hi, Hd. lia.
Qed.

(** C3.  [checkCompile] and [checkLink] first query the status.  On failure
    they print a caption followed by the log cut down to what a 512-byte
    buffer holds with its terminator; on success they print nothing.  Either
    way they return and leave the machine alone, and [main] goes on: with a
    window and a loader its result, and the number of iterations it runs,
    do not depend on what the compiler and the linker answer, and what it
    has printed is exactly the diagnostics of the failed checks. *)
Theorem check_failures_reported_not_fatal :
  (∀ W shader st,
     let st' := (checkCompile W shader st).2 in
     machine st' = machine st
     ∧ (compiled (machine st) shader = true ->
        calls st' = calls st ++ [glGetShaderiv shader GL_COMPILE_STATUS]
        ∧ stdout st' = stdout st)
     ∧ (compiled (machine st) shader = false ->
        calls st' = calls st ++ [glGetShaderiv shader GL_COMPILE_STATUS;
                                 glGetShaderInfoLog shader 512]
        ∧ ∃ text,
            stdout st' = stdout st +:+ "Shader compilation error:" +:+ endl
                         +:+ text +:+ endl
            ∧ (String.length text < 512)%nat
            ∧ String.prefix text (shader_log (machine st) shader) = true))
  ∧ (∀ W program st,
       let st' := (checkLink W program st).2 in
       machine st' = machine st
       ∧ (linked (machine st) program = true ->
          calls st' = calls st ++ [glGetProgramiv program GL_LINK_STATUS]
          ∧ stdout st' = stdout st)
       ∧ (linked (machine st) program = false ->
          calls st' = calls st ++ [glGetProgramiv program GL_LINK_STATUS;
                                   glGetProgramInfoLog program 512]
          ∧ ∃ text,
              stdout st' = stdout st +:+ "Program linking error:" +:+ endl
                           +:+ text +:+ endl
              ∧ (String.length text < 512)%nat
              ∧ String.prefix text (program_log (machine st) program) = true))
  ∧ (∀ W fuel,
       window_ok W = true -> loader_ok W = true ->
       stdout (main W fuel start).2 = startup_output W
       ∧ (compile_ok W GL_VERTEX_SHADER vertexShaderSource = true ->
          compile_ok W GL_FRAGMENT_SHADER normalFragSource = true ->
          compile_ok W GL_FRAGMENT_SHADER waveFragSource = true ->
          link_ok W (flat_stages W) = true ->
          link_ok W (wave_stages W) = true ->
          stdout (main W fuel start).2 = "")
       ∧ (main W fuel start).1 ≠ Some (-1)
       ∧ ∀ W', window_ok W' = true -> loader_ok W' = true ->
               (∀ i, close_request W' i = close_request W i) ->
               (main W' fuel start).1 = (main W fuel start).1
               ∧ polls (machine (main W' fuel start).2)
                 = polls (machine (main W fuel start).2)).
Proof.
  split; [|split].
  - intros W shader [m cs out]. rewrite checkCompile_run. simpl.
    split; [done|]. split; intros ->; [by rewrite append_empty|].
    split; [done|].
    destruct (diagnostic_bounded "Shader compilation error:"
                (shader_log m shader)) as (text & -> & ? & ?).
    eauto.
  - intros W program [m cs out]. rewrite checkLink_run. simpl.
    split; [done|]. split; intros ->; [by rewrite append_empty|].
    split; [done|].
    destruct (diagnostic_bounded "Program linking error:"
                (program_log m program)) as (text & -> & ? & ?).
    eauto.
  - intros W fuel Hw Hl. rewrite main_run by done. simpl.
    split; [done|]. split; [|split].
    + unfold startup_output, compile_output, link_output.
      by intros -> -> -> -> ->.
    + by destruct (leaves W fuel 0).
    + intros W' Hw' Hl' Hclose. rewrite main_run by done. simpl.
      destruct (leaves_ext W W' fuel 0 Hclose) as [-> ->].
      by destruct (leaves W fuel 0).
Qed.

Lemma check_failures_reported_not_fatal_witness :
  stdout (main broken_world 5 start).2 = startup_output broken_world
  ∧ (main broken_world 5 start).1 ≠ Some (-1).
Proof.
  destruct check_failures_reported_not_fatal as (_ & _ & H).
  destruct (H broken_world 5%nat eq_refl eq_refl) as (H1 & _ & H3 & _).
  split; assumption.
Defined.

(** C4.  [main] returns 0 exactly when there are a window and a loader and
    the render loop is left, which happens on a close request only; it
    returns a negative code, namely -1, exactly when the window or the
    loader is missing; and it returns nothing else: otherwise the loop is
    still running. *)
Theorem exit_codes W fuel :
  ((main W fuel start).1 = Some 0
   <-> window_ok W = true ∧ loader_ok W = true
       ∧ ∃ k, (k < fuel)%nat ∧ flag_after W k = true)
  ∧ ((main W fuel start).1 = Some 0 ->
     close_flag (machine (main W fuel start).2) = true)
  ∧ ((∃ code, (main W fuel start).1 = Some code ∧ code < 0)
     <-> window_ok W = false ∨ loader_ok W = false)
  ∧ (∀ code, (main W fuel start).1 = Some code -> code = 0 ∨ code = -1)
  ∧ ((main W fuel start).1 = None
     <-> window_ok W = true ∧ loader_ok W = true
         ∧ ∀ k, (k < fuel)%nat -> flag_after W k = false).
Proof.
  assert (Hleaves : leaves W fuel 0 = true
                    <-> ∃ k, (k < fuel)%nat ∧ flag_after W k = true).
  { rewrite leaves_iff. split; intros (k & Hk & Hf); exists k;
      (split; [lia|done]). }
  assert (Hstays : leaves W fuel 0 = false
                   <-> ∀ k, (k < fuel)%nat -> flag_after W k = false).
  { rewrite <- not_true_iff_false, Hleaves. split.
    - intros H k Hk. destruct (flag_after W k) eqn:E; [|done].
      destruct H. eauto.
    - intros H (k & Hk & Hf). rewrite H in Hf by done. done. }
  rewrite <- Hleaves, <- Hstays.
  split; [|split; [apply main_close_flag|]]; rewrite main_result.
  - destruct (window_ok W), (loader_ok W), (leaves W fuel 0); simpl;
      intuition congruence.
  - split; [|split].
    + destruct (window_ok W), (loader_ok W), (leaves W fuel 0); simpl;
        (split;
         [ intros (code & Hc & Hneg);
           first [discriminate | injection Hc as <-; first [lia | auto]]
         | intros [?|?];
           first [discriminate | exists (-1); split; [done|lia]] ]).
    + intros code.
      destruct (window_ok W), (loader_ok W), (leaves W fuel 0); simpl;
        intros [= <-] || intros [=]; auto.
    + destruct (window_ok W), (loader_ok W), (leaves W fuel 0); simpl;
        intuition congruence.
Qed.

Lemma exit_codes_witness : (main demo_world 5 start).1 = Some 0.
Proof.
  apply (proj1 (exit_codes demo_world 5)).
  split; [reflexivity|]. split; [reflexivity|].
  exists 2%nat. split; [lia|reflexivity].
Defined.

(** C5.  When the first close request arrives with the event pump of
    iteration [n] (counting from 0), that iteration is the last: the loop
    evaluates its condition once more and is left, so no further iteration
    is run; [main] then deletes everything it created and returns 0.  This
    needs fuel for [n + 2] evaluations of the condition only. *)
Theorem close_request_ends_run W fuel n :
  window_ok W = true -> loader_ok W = true ->
  (∀ i, (i < n)%nat -> close_request W i = false) ->
  close_request W n = true ->
  (n + 2 ≤ fuel)%nat ->
  (main W fuel start).1 = Some 0
  ∧ calls (main W fuel start).2
    = startup_calls W ++ loop_calls W (S n)
      ++ glfwWindowShouldClose :: cleanup_calls
  ∧ last (loop_calls W (S n)) = Some glfwPollEvents
  ∧ polls (machine (main W fuel start).2) = S n
  ∧ shaders (machine (main W fuel start).2) = ∅
  ∧ programs (machine (main W fuel start).2) = ∅
  ∧ buffers (machine (main W fuel start).2) = ∅
  ∧ arrays (machine (main W fuel start).2) = ∅
  ∧ released (machine (main W fuel start).2)
    ≡ₚ created (machine (main W fuel start).2)
  ∧ stale_deletes (machine (main W fuel start).2) = [].
Proof.
  intros Hw Hl Hbefore Hn Hfuel.
  destruct (iterations_first_close W fuel n Hbefore Hn Hfuel) as [Hit Hlv].
  rewrite main_run by done. rewrite Hit, Hlv. cbn [fst snd machine calls].
  split; [done|]. split; [done|].
  split; [by rewrite loop_calls_S, last_app|].
  repeat (split; [done|]).
  split; [apply final_released|done].
Qed.

Lemma close_request_ends_run_witness :
  (main demo_world 3 start).1 = Some 0.
Proof.
  refine (proj1 (close_request_ends_run demo_world 3 1 eq_refl eq_refl _
                   eq_refl _)).
  - intros i Hi. assert (i = 0%nat) as -> by lia. reflexivity.
  - lia.
Defined.

(** C6.  The two buffers are written once each, at startup.  At any two
    points of a run that lie after the second upload and before the first
    [glDeleteBuffers], the buffers are the same: the vertex buffer holds
    [vertices] and the index buffer holds [indices].  A point of the run is
    a prefix of its calls; the machine there is the replay of that
    prefix. *)
Theorem geometry_immutable W fuel p1 p2 :
  window_ok W = true -> loader_ok W = true ->
  p1 `prefix_of` calls (main W fuel start).2 ->
  p2 `prefix_of` calls (main W fuel start).2 ->
  index_upload ∈ p1 -> index_upload ∈ p2 ->
  (∀ names, glDeleteBuffers names ∉ p1) ->
  (∀ names, glDeleteBuffers names ∉ p2) ->
  buffers (replay W p1 boot) = buffers (replay W p2 boot)
  ∧ buffers (replay W p1 boot)
    = <[EBO handles := {| buf_size := 48; buf_data := UInts indices |}]>
        {[VBO handles := {| buf_size := 160; buf_data := Floats vertices |}]}
  ∧ List.filter is_upload (calls (main W fuel start).2)
    = [vertex_upload; index_upload]
  ∧ machine (main W fuel start).2
    = replay W (calls (main W fuel start).2) boot.
Proof.
  intros Hw Hl Hp1 Hp2 Hin1 Hin2 Hdel1 Hdel2.
  assert (Hpoint : ∀ p,
            p `prefix_of` calls (main W fuel start).2 ->
            index_upload ∈ p -> (∀ names, glDeleteBuffers names ∉ p) ->
            buffers (replay W p boot) = buffers (loop_machine W 0)).
  { clear Hp1 Hp2 Hin1 Hin2 Hdel1 Hdel2. intros p Hp Hin Hdel. revert Hp.
    rewrite main_run by done. cbn [snd calls].
    rewrite startup_split, <- app_assoc, <- app_comm_cons. intros Hp.
    apply prefix_through in Hp as (q & -> & Hq);
      [|done|apply before_upload_no_index].
    rewrite (cons_middle index_upload), app_assoc, replay_app.
    rewrite replay_buffers; [by apply uploaded_buffers| |apply upload_settled].
    assert (Hq' : q `prefix_of`
                    after_upload ++ loop_calls W (iterations W fuel 0)
                    ++ [glfwWindowShouldClose;
                        glDeleteVertexArrays [VAO handles]]).
    { destruct (leaves W fuel 0).
      - unfold cleanup_calls in Hq.
        apply (prefix_before q _
                 [glDeleteBuffers [EBO handles];
                  glDeleteProgram (normalShader handles);
                  glDeleteProgram (waveShader handles); glfwTerminate]
                 (glDeleteBuffers [VBO handles])).
        + by rewrite <- !app_assoc.
        + intros Hn. apply (Hdel [VBO handles]).
          rewrite elem_of_app. right. by right.
      - rewrite app_nil_r in Hq.
        rewrite app_assoc. by apply prefix_app_r. }
    apply (Forall_prefix _ _ _ Hq').
    rewrite !Forall_app. split; [apply after_upload_quiet|].
    split; [apply loop_quiet|]. by repeat constructor. }
  split; [by rewrite !Hpoint|].
  split; [by rewrite Hpoint|].
  split; [|apply main_consistent].
  rewrite main_run by done. cbn [snd calls].
  rewrite !List.filter_app, startup_uploads, loop_no_upload.
  by destruct (leaves W fuel 0).
Qed.

Lemma geometry_immutable_witness :
  buffers (replay demo_world (startup_calls demo_world) boot)
  = buffers (replay demo_world
               (startup_calls demo_world ++ loop_calls demo_world 1) boot).
Proof.
  refine (proj1 (geometry_immutable demo_world 3
                   (startup_calls demo_world)
                   (startup_calls demo_world ++ loop_calls demo_world 1)
                   eq_refl eq_refl _ _ _ _ _ _)).
  - eexists. vm_compute. reflexivity.
  - eexists. vm_compute. reflexivity.
  - apply list_elem_of_In. vm_compute. tauto.
  - apply list_elem_of_In. vm_compute. tauto.
  - intros names.
    apply (forallb_not_elem
             (λ c, match c with glDeleteBuffers _ => true | _ => false end));
      reflexivity.
  - intros names.
    apply (forallb_not_elem
             (λ c, match c with glDeleteBuffers _ => true | _ => false end));
      reflexivity.
Defined.

(** C7.  The geometry is 8 vertices of 5 floats and 12 indices.  While the
    loop runs there is one vertex array; it has two attributes, both
    enabled and both read from the vertex buffer with a stride of 5 floats:
    attribute 0 takes 3 floats at offset 0, attribute 1 takes 2 floats at
    the offset of 3 floats.  The vertex buffer holds the 40 floats of
    [vertices] and the element buffer of the array the 12 entries of
    [indices]. *)
Theorem geometry_layout W fuel :
  window_ok W = true -> loader_ok W = true ->
  (main W fuel start).1 = None ->
  length vertices = (8 * 5)%nat
  ∧ length indices = 12%nat
  ∧ ∃ va,
      arrays (machine (main W fuel start).2) = {[VAO handles := va]}
      ∧ dom (va_attribs va) = {[0%N; 1%N]}
      ∧ va_attribs va !! 0%N
        = Some {| at_size := 3; at_type := GL_FLOAT; at_normalized := false;
                  at_stride := 5 * sizeof_float; at_offset := 0;
                  at_buffer := VBO handles |}
      ∧ va_attribs va !! 1%N
        = Some {| at_size := 2; at_type := GL_FLOAT; at_normalized := false;
                  at_stride := 5 * sizeof_float;
                  at_offset := 3 * sizeof_float;
                  at_buffer := VBO handles |}
      ∧ va_enabled va = {[0%N; 1%N]}
      ∧ va_element_buffer va = EBO handles
      ∧ buffers (machine (main W fuel start).2) !! VBO handles
        = Some {| buf_size := sizeof_float * (8 * 5);
                  buf_data := Floats vertices |}
      ∧ buffers (machine (main W fuel start).2) !! EBO handles
        = Some {| buf_size := sizeof_unsigned_int * 12;
                  buf_data := UInts indices |}.
Proof.
  intros Hw Hl Hret. rewrite main_result, Hw, Hl in Hret. simpl in Hret.
  destruct (leaves W fuel 0) eqn:Hlv; [done|].
  rewrite main_run by done. rewrite Hlv. cbn [snd machine].
  split; [reflexivity|]. split; [reflexivity|].
  exists geometry_array.
  split; [reflexivity|].
  split; [apply (bool_decide_unpack _); vm_compute; reflexivity|].
  split; [reflexivity|]. split; [reflexivity|].
  split; [apply (bool_decide_unpack _); vm_compute; reflexivity|].
  split; [reflexivity|].
  split; vm_compute; reflexivity.
Qed.

Lemma geometry_layout_witness :
  length vertices = (8 * 5)%nat ∧ length indices = 12%nat.
Proof.
  destruct (geometry_layout demo_world 1 eq_refl eq_refl eq_refl)
    as (H1 & H2 & _).
  split; assumption.
Defined.

(** C8.  On the run that returns 0 every GPU object is created once and
    deleted once, none is deleted twice and none is left: the three shaders
    right after the second program has been linked and checked, the vertex
    array, the two buffers and the two programs after the loop has been
    left; these eight deletes are the only ones. *)
Theorem objects_released_once W fuel :
  window_ok W = true -> loader_ok W = true ->
  (main W fuel start).1 = Some 0 ->
  created (machine (main W fuel start).2)
  = [(KShader, vertexShader); (KShader, normalFrag); (KShader, waveFrag);
     (KProgram, normalShader handles); (KProgram, waveShader handles);
     (KVertexArray, VAO handles); (KBuffer, VBO handles);
     (KBuffer, EBO handles)]
  ∧ released (machine (main W fuel start).2)
    ≡ₚ created (machine (main W fuel start).2)
  ∧ NoDup (released (machine (main W fuel start).2))
  ∧ stale_deletes (machine (main W fuel start).2) = []
  ∧ shaders (machine (main W fuel start).2) = ∅
  ∧ programs (machine (main W fuel start).2) = ∅
  ∧ buffers (machine (main W fuel start).2) = ∅
  ∧ arrays (machine (main W fuel start).2) = ∅
  ∧ List.filter is_delete (calls (main W fuel start).2)
    = [glDeleteShader vertexShader; glDeleteShader normalFrag;
       glDeleteShader waveFrag; glDeleteVertexArrays [VAO handles];
       glDeleteBuffers [VBO handles]; glDeleteBuffers [EBO handles];
       glDeleteProgram (normalShader handles);
       glDeleteProgram (waveShader handles)]
  ∧ ∃ n before,
      calls (main W fuel start).2
      = before
        ++ link_calls W (normalShader handles) vertexShader normalFrag
             (flat_stages W)
        ++ link_calls W (waveShader handles) vertexShader waveFrag
             (wave_stages W)
        ++ [glDeleteShader vertexShader; glDeleteShader normalFrag;
            glDeleteShader waveFrag]
        ++ geometry_calls
        ++ loop_calls W n
        ++ [glfwWindowShouldClose;
            glDeleteVertexArrays [VAO handles];
            glDeleteBuffers [VBO handles]; glDeleteBuffers [EBO handles];
            glDeleteProgram (normalShader handles);
            glDeleteProgram (waveShader handles);
            glfwTerminate]
      ∧ flag_after W n = true.
Proof.
  intros Hw Hl Hret. rewrite main_result, Hw, Hl in Hret. simpl in Hret.
  destruct (leaves W fuel 0) eqn:Hlv; [|done].
  rewrite main_run by done. rewrite Hlv. cbn [snd machine calls].
  split; [done|].
  split; [apply final_released|]. split; [apply final_released|].
  repeat (split; [done|]).
  split.
  - rewrite !List.filter_app, startup_deletes, loop_no_delete. done.
  - exists (iterations W fuel 0),
      (init_calls ++ [glfwMakeContextCurrent; gladLoadGLLoader]
       ++ compile_calls W vertexShader GL_VERTEX_SHADER vertexShaderSource
       ++ compile_calls W normalFrag GL_FRAGMENT_SHADER normalFragSource
       ++ compile_calls W waveFrag GL_FRAGMENT_SHADER waveFragSource).
    split; [|by apply leaves_flag].
    unfold startup_calls, shader_calls, cleanup_calls.
    by rewrite <- !app_assoc.
Qed.

Lemma objects_released_once_witness :
  stale_deletes (machine (main demo_world 3 start).2) = [].
Proof.
  refine (proj1 (proj2 (proj2 (proj2
    (objects_released_once demo_world 3 eq_refl eq_refl eq_refl))))).
Defined.

(** C9.  As stated the claim fails when the flat program does not link:
    [glUseProgram(normalShader)] is then refused and the first quad is
    drawn with the program still current, the wave program with the time
    of the frame before.  What holds: when the flat program is linked,
    every draw of the first quad, the draw of an iteration that fetches the
    first six indices, is made with the flat program and without any
    uniform value, and its fragment stage writes the constant colour the
    source spells (0.8, 0.4, 0.2, 1.0), as the [float]s nearest to these
    literals, whatever the texture coordinate.  Any two such draws, in two
    frames of one run or in two runs whose clocks, sines and everything
    else differ, are given the same inputs and colour every fragment
    alike. *)
Theorem flat_quad_ignores_time W1 W2 fuel1 fuel2 d1 d2 tc1 tc2 :
  window_ok W1 = true -> loader_ok W1 = true ->
  window_ok W2 = true -> loader_ok W2 = true ->
  link_ok W1 (flat_stages W1) = true ->
  link_ok W2 (flat_stages W2) = true ->
  Drawn d1 ∈ rendered (machine (main W1 fuel1 start).2) ->
  dr_indices d1 = Some (take 6 indices) ->
  Drawn d2 ∈ rendered (machine (main W2 fuel2 start).2) ->
  dr_indices d2 = Some (take 6 indices) ->
  dr_program d1 = normalShader handles
  ∧ dr_uniforms d1 = ∅
  ∧ d1 = d2
  ∧ fragment_color W1 d1 tc1
    = Some (GLSL.Vec4 (literal 0.8) (literal 0.4) (literal 0.2)
              (literal 1.0))
  ∧ fragment_color W1 d1 tc1
    = Some (GLSL.Vec4 (Binary32.Finite (13421773 # 16777216))
              (Binary32.Finite (13421773 # 33554432))
              (Binary32.Finite (13421773 # 67108864))
              (Binary32.Finite 1))
  ∧ fragment_color W2 d2 tc2 = fragment_color W1 d1 tc1.
Proof.
  intros Hw1 Hl1 Hw2 Hl2 Hlink1 Hlink2 Hd1 Hi1 Hd2 Hi2.
  rewrite main_rendered in Hd1, Hd2 by done.
  apply first_draws in Hd1 as (k1 & _ & ->); [|done].
  apply first_draws in Hd2 as (k2 & _ & ->); [|done].
  rewrite !flat_draw_linked by done.
  split; [done|]. split; [done|]. split; [done|].
  unfold fragment_color. cbn [dr_fragment].
  destruct (decide (normalFragSource = normalFragSource)); [|done].
  split; [done|]. split; [|done].
  vm_compute. reflexivity.
Qed.

Lemma flat_quad_ignores_time_witness :
  fragment_color late_world (flat_draw late_world 1)
    (GLSL.Vec2 (Binary32.Finite 1) (Binary32.Finite 1))
  = fragment_color demo_world (flat_draw demo_world 0)
      (GLSL.Vec2 (Binary32.Finite 0) (Binary32.Finite 0)).
Proof.
  refine (proj2 (proj2 (proj2 (proj2 (proj2
    (flat_quad_ignores_time demo_world late_world 5 5
       (flat_draw demo_world 0) (flat_draw late_world 1)
       (GLSL.Vec2 (Binary32.Finite 0) (Binary32.Finite 0))
       (GLSL.Vec2 (Binary32.Finite 1) (Binary32.Finite 1))
       _ _ _ _ _ _ _ _ _ _)))))).
  all: try reflexivity.
  - apply list_elem_of_In. vm_compute. tauto.
  - apply list_elem_of_In. vm_compute. tauto.
Defined.

(** The claim of C9 as the specification states it fails in a world whose
    linker refuses the flat program and accepts the wave program.  The
    first quad is drawn three times there: by no program in the first
    iteration, and then by the wave program, with the clock reading of the
    iteration before in its time uniform, so that the second and the third
    iteration colour the same fragment differently and neither writes the
    colour of the flat stage. *)
Lemma first_quad_varies_without_flat_program :
  let W := flat_unlinked_world in
  let m := machine (main W 5 start).2 in
  let tc := GLSL.Vec2 (Binary32.Finite 0) (Binary32.Finite 0) in
  let color red :=
    Some (GLSL.Vec4 (Binary32.Finite red) (Binary32.Finite (1 # 2))
            (Binary32.Finite 1) (Binary32.Finite 1)) in
  (window_ok W = true ∧ loader_ok W = true
   ∧ link_ok W (flat_stages W) = false ∧ (main W 5 start).1 = Some 0)
  ∧ (Drawn (flat_draw W 0) ∈ rendered m
     ∧ Drawn (flat_draw W 1) ∈ rendered m
     ∧ Drawn (flat_draw W 2) ∈ rendered m)
  ∧ (∀ k, dr_indices (flat_draw W k) = Some (take 6 indices))
  ∧ (dr_program (flat_draw W 0) = 0%N
     ∧ dr_program (flat_draw W 1) = waveShader handles
     ∧ dr_program (flat_draw W 2) = waveShader handles)
  ∧ (fragment_color W (flat_draw W 0) tc = None
     ∧ fragment_color W (flat_draw W 1) tc = color (13421773 # 67108864)
     ∧ fragment_color W (flat_draw W 2) tc = color (6990183 # 33554432))
  ∧ fragment_color W (flat_draw W 1) tc ≠ fragment_color W (flat_draw W 2) tc
  ∧ fragment_color W (flat_draw W 1) tc ≠ Some (GLSL.normalFrag_main tc)
  ∧ ¬ (∀ d1 d2,
         Drawn d1 ∈ rendered m -> dr_indices d1 = Some (take 6 indices) ->
         Drawn d2 ∈ rendered m -> dr_indices d2 = Some (take 6 indices) ->
         fragment_color W d1 tc = Some (GLSL.normalFrag_main tc)
         ∧ fragment_color W d2 tc = fragment_color W d1 tc).
Proof.
  cbv zeta.
  assert (Drawn (flat_draw flat_unlinked_world 1)
          ∈ rendered (machine (main flat_unlinked_world 5 start).2)) as H1
    by (apply list_elem_of_In; vm_compute; tauto).
  assert (Drawn (flat_draw flat_unlinked_world 2)
          ∈ rendered (machine (main flat_unlinked_world 5 start).2)) as H2
    by (apply list_elem_of_In; vm_compute; tauto).
  assert (fragment_color flat_unlinked_world (flat_draw flat_unlinked_world 1)
            (GLSL.Vec2 (Binary32.Finite 0) (Binary32.Finite 0))
          = Some (GLSL.Vec4 (Binary32.Finite (13421773 # 67108864))
                    (Binary32.Finite (1 # 2)) (Binary32.Finite 1)
                    (Binary32.Finite 1))) as E1
    by (vm_compute; reflexivity).
  assert (fragment_color flat_unlinked_world (flat_draw flat_unlinked_world 2)
            (GLSL.Vec2 (Binary32.Finite 0) (Binary32.Finite 0))
          = Some (GLSL.Vec4 (Binary32.Finite (6990183 # 33554432))
                    (Binary32.Finite (1 # 2)) (Binary32.Finite 1)
                    (Binary32.Finite 1))) as E2
    by (vm_compute; reflexivity).
  split; [by repeat split|].
  split.
  { split; [apply list_elem_of_In; vm_compute; tauto|]. by split. }
  split; [done|]. split; [by repeat split|].
  split; [by repeat split|].
  rewrite E1, E2.
  split; [discriminate|]. split; [vm_compute; discriminate|].
  intros H.
  destruct (H _ _ H1 eq_refl H2 eq_refl) as [_ E].
  rewrite E1, E2 in E. discriminate.
Qed.

(** C10.  As stated the bounds fail: the [float] nearest to 0.1 is a little
    more than 0.1, so that a sine of 1 gives a wave term above 0.1 and a
    red component above 0.3; and a time so large that five times it is
    beyond the format gives no number at all.  What holds: whenever the
    argument of [sin] is a finite number and the sine answers within
    [-1, 1], the wave term lies between [-c] and [c] for
    [c = 13421773 / 2^27], the [float] of 0.1, and the colour written is
    [(r, 0.5, 1.0, 1.0)] with [r] between [c] and [5033165 / 2^24], the
    [float]s of 0.1 and of 0.3; every component lies in [0, 1]. *)
Theorem wave_color_bounds (sine : Q -> Q) (time : float)
    (TexCoord : GLSL.vec2) (phase : Q) :
  (∀ q, (-1 <= sine q)%Q ∧ (sine q <= 1)%Q) ->
  Binary32.add (Binary32.mul (GLSL.x TexCoord) (Binary32.round 10.0))
    (Binary32.mul time (Binary32.round 5.0))
  = Binary32.Finite phase ->
  Binary32.between (- (13421773 # 134217728)) (13421773 # 134217728)
    (GLSL.wave sine time TexCoord)
  ∧ (∃ red,
       GLSL.waveFrag_main sine time TexCoord
       = GLSL.Vec4 (Binary32.Finite red) (Binary32.Finite (1 # 2))
           (Binary32.Finite 1) (Binary32.Finite 1)
       ∧ (13421773 # 134217728 <= red)%Q
       ∧ (red <= 5033165 # 16777216)%Q
       ∧ (0.1 < red)%Q ∧ (red < 0.30000002)%Q)
  ∧ GLSL.unit_range (GLSL.r (GLSL.waveFrag_main sine time TexCoord))
  ∧ GLSL.unit_range (GLSL.g (GLSL.waveFrag_main sine time TexCoord))
  ∧ GLSL.unit_range (GLSL.b (GLSL.waveFrag_main sine time TexCoord))
  ∧ GLSL.unit_range (GLSL.a (GLSL.waveFrag_main sine time TexCoord)).
Proof.
  intros Hsine Hphase.
  unfold GLSL.waveFrag_main, GLSL.wave. rewrite Hphase.
  cbn [GLSL.sin GLSL.r GLSL.g GLSL.b GLSL.a].
  destruct (Hsine phase) as [Hlo Hhi].
  destruct (Binary32Facts.round_within (-1) 1 (sine phase) (-1) 1 Hlo Hhi)
    as (s & -> & Hs1 & Hs2); [reflexivity|reflexivity|].
  change (Binary32.round 0.1)
    with (Binary32.Finite (13421773 # 134217728)).
  cbn [Binary32.mul].
  destruct (Binary32Facts.round_within
              (- (13421773 # 134217728)) (13421773 # 134217728)
              (s * (13421773 # 134217728))
              (- (13421773 # 134217728)) (13421773 # 134217728))
    as (w & Hw & Hw1 & Hw2);
    [lra|lra|vm_compute; reflexivity|vm_compute; reflexivity|].
  rewrite Hw.
  change (Binary32.round 0.2) with (Binary32.Finite (13421773 # 67108864)).
  change (Binary32.round 0.5) with (Binary32.Finite (1 # 2)).
  change (Binary32.round 1.0) with (Binary32.Finite 1).
  cbn [Binary32.add].
  destruct (Binary32Facts.round_within
              ((13421773 # 67108864) + - (13421773 # 134217728))
              ((13421773 # 67108864) + (13421773 # 134217728))
              ((13421773 # 67108864) + w)
              (13421773 # 134217728) (5033165 # 16777216))
    as (red & Hr & Hr1 & Hr2);
    [lra|lra|vm_compute; reflexivity|vm_compute; reflexivity|].
  rewrite Hr.
  split; [exists w; split; [done|]; split; assumption|].
  split.
  { exists red. split; [done|]. split; [done|]. split; [done|].
    split; lra. }
  unfold GLSL.unit_range, Binary32.between.
  split; [exists red; split; [done|]; split; lra|].
  split; [exists (1 # 2)%Q; split; [done|]; split; lra|].
  split; exists 1%Q; (split; [done|]; split; lra).
Qed.

Lemma wave_color_bounds_witness :
  Binary32.between (- (13421773 # 134217728)) (13421773 # 134217728)
    (GLSL.wave bounded_sin (Binary32.Finite 2)
       (GLSL.Vec2 (Binary32.Finite (1 # 2)) (Binary32.Finite 0))).
Proof.
  refine (proj1 (wave_color_bounds bounded_sin (Binary32.Finite 2)
                   (GLSL.Vec2 (Binary32.Finite (1 # 2)) (Binary32.Finite 0))
                   15 _ _)).
  - apply bounded_sin_range.
  - vm_compute. reflexivity.
Defined.

(** The claim of C10 as the specification states it fails at a sine of 1.
    At the texture coordinate 0 and the time [5147 / 2^14] the argument of
    [sin] is [25735 / 2^14], within [6 / 10^5] of a quarter turn, where the
    sine is [1 - 2 / 10^9]: any sine that is right there to half a step of
    the format answers 1, the wave term is the [float] of 0.1, above 0.1,
    and the red component the [float] of 0.3, above 0.3.  The Taylor
    polynomial of degree 13, cut to [-1, 1], is such a sine.  The claim
    also fails when five times the time is beyond the format: the
    argument of [sin] is infinite and the red component no number. *)
Lemma wave_color_exceeds_stated_bounds :
  let time := Binary32.Finite (5147 # 16384) in
  let TexCoord := GLSL.Vec2 (Binary32.Finite 0) (Binary32.Finite 0) in
  (∀ q, (-1 <= bounded_sin q)%Q ∧ (bounded_sin q <= 1)%Q)
  ∧ GLSL.wave bounded_sin time TexCoord
    = Binary32.Finite (13421773 # 134217728)
  ∧ ¬ (13421773 # 134217728 <= 0.1)%Q
  ∧ GLSL.r (GLSL.waveFrag_main bounded_sin time TexCoord)
    = Binary32.Finite (5033165 # 16777216)
  ∧ ¬ (5033165 # 16777216 <= 0.3)%Q
  ∧ ¬ Binary32.between (-0.1) 0.1 (GLSL.wave bounded_sin time TexCoord)
  ∧ ¬ Binary32.between 0.1 0.3
        (GLSL.r (GLSL.waveFrag_main bounded_sin time TexCoord))
  ∧ (∀ sine : Q -> Q,
       (1 - (1 # 33554432) <= sine (25735 # 16384))%Q ->
       (sine (25735 # 16384) <= 1)%Q ->
       GLSL.wave sine time TexCoord
       = Binary32.Finite (13421773 # 134217728)
       ∧ GLSL.r (GLSL.waveFrag_main sine time TexCoord)
         = Binary32.Finite (5033165 # 16777216))
  ∧ (∀ sine : Q -> Q,
       GLSL.r (GLSL.waveFrag_main sine
                 (Binary32.round (inject_Z (2 ^ 127))) TexCoord)
       = Binary32.NaN).
Proof.
  cbv zeta.
  assert (∀ sine : Q -> Q,
            (1 - (1 # 33554432) <= sine (25735 # 16384))%Q ->
            (sine (25735 # 16384) <= 1)%Q ->
            GLSL.wave sine (Binary32.Finite (5147 # 16384))
              (GLSL.Vec2 (Binary32.Finite 0) (Binary32.Finite 0))
            = Binary32.Finite (13421773 # 134217728)
            ∧ GLSL.r (GLSL.waveFrag_main sine
                        (Binary32.Finite (5147 # 16384))
                        (GLSL.Vec2 (Binary32.Finite 0) (Binary32.Finite 0)))
              = Binary32.Finite (5033165 # 16777216)) as Hany.
  { intros sine Hlo Hhi.
    assert (GLSL.wave sine (Binary32.Finite (5147 # 16384))
              (GLSL.Vec2 (Binary32.Finite 0) (Binary32.Finite 0))
            = Binary32.Finite (13421773 # 134217728)) as Hw.
    { unfold GLSL.wave. cbn [GLSL.x].
      change (Binary32.add
                (Binary32.mul (Binary32.Finite 0) (Binary32.round 10.0))
                (Binary32.mul (Binary32.Finite (5147 # 16384))
                   (Binary32.round 5.0)))
        with (Binary32.Finite (25735 # 16384)).
      unfold GLSL.sin.
      rewrite (Binary32Facts.round_near_one _ Hlo Hhi).
      vm_compute. reflexivity. }
    split; [done|].
    unfold GLSL.waveFrag_main. cbn [GLSL.r]. rewrite Hw.
    vm_compute. reflexivity. }
  assert ((1 - (1 # 33554432) <= bounded_sin (25735 # 16384))%Q
          ∧ (bounded_sin (25735 # 16384) <= 1)%Q) as [Hlo Hhi].
  { split; apply Qle_bool_imp_le; vm_compute; reflexivity. }
  destruct (Hany bounded_sin Hlo Hhi) as [Hw Hr].
  rewrite Hw, Hr.
  split; [apply bounded_sin_range|].
  split; [done|]. split; [vm_compute; tauto|].
  split; [done|]. split; [vm_compute; tauto|].
  split.
  { intros (q & [= <-] & _ & H). vm_compute in H. by apply H. }
  split.
  { intros (q & [= <-] & _ & H). vm_compute in H. by apply H. }
  split; [done|].
  intros sine. unfold GLSL.waveFrag_main, GLSL.wave. cbn [GLSL.r GLSL.x].
  change (Binary32.add
            (Binary32.mul (Binary32.Finite 0) (Binary32.round 10.0))
            (Binary32.mul (Binary32.round (inject_Z (2 ^ 127)))
               (Binary32.round 5.0)))
    with (Binary32.Infinity false).
  reflexivity.
Qed.

(** * Further properties *)

(** *** Giving up early *)

Lemma init_calls_not_gl :
  List.filter is_gl (init_calls ++ [glfwMakeContextCurrent; gladLoadGLLoader])
  = [].
Proof. reflexivity. Qed.

Lemma terminate_not_in_loop W n : glfwTerminate ∉ loop_calls W n.
Proof.
  apply (forallb_not_elem
           (λ c, match c with glfwTerminate => true | _ => false end));
    [|done].
  induction n as [|n IH]; [done|].
  by rewrite loop_calls_S, forallb_app, IH.
Qed.

Lemma terminate_not_in_startup W : glfwTerminate ∉ startup_calls W.
Proof.
  apply (forallb_not_elem
           (λ c, match c with glfwTerminate => true | _ => false end));
    [|done].
  unfold startup_calls, shader_calls, compile_calls, link_calls.
  split_bools; reflexivity.
Qed.

(** X1.  When [main] returns -1 it has made no OpenGL call and created no
    object, it has printed exactly one line saying which of the two checks
    failed, and it has not called [glfwTerminate]: after a failed loader the
    window is still there.  [glfwTerminate] is called on the run that
    returns 0 and on no other; there it is the last call and the window is
    gone after it. *)
Theorem early_return_skips_teardown W fuel :
  ((main W fuel start).1 = Some (-1) ->
   List.filter is_gl (calls (main W fuel start).2) = []
   ∧ created (machine (main W fuel start).2) = []
   ∧ window (machine (main W fuel start).2) = window_ok W
   ∧ (window_ok W = false
      ∧ stdout (main W fuel start).2 = "Failed to create GLFW window" +:+ endl
      ∨ window_ok W = true ∧ loader_ok W = false
        ∧ stdout (main W fuel start).2 = "Failed to init GLAD" +:+ endl))
  ∧ (glfwTerminate ∈ calls (main W fuel start).2
     <-> (main W fuel start).1 = Some 0)
  ∧ ((main W fuel start).1 = Some 0 ->
     last (calls (main W fuel start).2) = Some glfwTerminate
     ∧ window (machine (main W fuel start).2) = false).
Proof.
  destruct (window_ok W) eqn:Hw; [destruct (loader_ok W) eqn:Hl|].
  - rewrite main_run by done. cbn [fst snd calls machine].
    destruct (leaves W fuel 0) eqn:Hlv.
    + split; [done|]. split.
      * split; [done|]. intros _.
        rewrite !elem_of_app. right. right.
        apply list_elem_of_In. simpl. tauto.
      * intros _. split; [|done].
        by rewrite app_assoc, last_app.
    + split; [done|]. split; [|done].
      split; [|done]. rewrite app_nil_r, elem_of_app.
      intros [H|H].
      * by apply terminate_not_in_startup in H.
      * by apply terminate_not_in_loop in H.
  - rewrite no_loader_run by done. cbn [fst snd calls machine stdout].
    split; [intros _; repeat split; tauto|]. split; [|done].
    split; [|done]. intros H. apply list_elem_of_In in H. simpl in H.
    repeat destruct H as [H|H]; done.
  - rewrite no_window_run by done. cbn [fst snd calls machine stdout].
    split; [intros _; repeat split; tauto|]. split; [|done].
    split; [|done]. intros H. apply list_elem_of_In in H. simpl in H.
    repeat destruct H as [H|H]; done.
Qed.

Lemma early_return_skips_teardown_witness :
  created (machine (main unloaded_world 4 start).2) = []
  ∧ window (machine (main unloaded_world 4 start).2) = true.
Proof.
  destruct (proj1 (early_return_skips_teardown unloaded_world 4) eq_refl)
    as (_ & H1 & H2 & _).
  split; assumption.
Defined.

(** *** Order of the first calls *)

Lemma split_after_prefix {A} (f : A -> bool) (a p rest b : list A) (c : A) :
  p ++ c :: rest = a ++ b -> f c = true -> List.filter f a = [] ->
  exists q, p = a ++ q.
Proof.
  revert p. induction a as [|x a IH]; intros p Heq Hc Ha.
  - by exists p.
  - simpl in Ha. destruct (f x) eqn:Hx; [done|].
    destruct p as [|y p]; simpl in Heq.
    + injection Heq as -> _. congruence.
    + injection Heq as -> Heq. destruct (IH p Heq Hc Ha) as [q ->].
      by exists q.
Qed.

Lemma filter_nil_not_elem {A} (f : A -> bool) (l : list A) (c : A) :
  List.filter f l = [] -> c ∈ l -> f c = false.
Proof.
  induction l as [|x l IH]; intros Hf Hc; [by apply elem_of_nil in Hc|].
  simpl in Hf. destruct (f x) eqn:Hx; [done|].
  apply elem_of_cons in Hc as [->|Hc]; auto.
Qed.

Lemma startup_calls_begin W :
  exists rest,
    startup_calls W
    = (init_calls ++ [glfwMakeContextCurrent; gladLoadGLLoader]) ++ rest.
Proof.
  unfold startup_calls. eexists.
  rewrite <- !app_assoc. reflexivity.
Qed.

(** X2.  No OpenGL function is called before the window exists, its context
    is current and the loader has succeeded: wherever an OpenGL call stands
    in the calls of a run, both checks have passed, and
    [glfwMakeContextCurrent] and [gladLoadGLLoader] stand before it. *)
Theorem no_gl_call_before_loader W fuel p c rest :
  calls (main W fuel start).2 = p ++ c :: rest ->
  is_gl c = true ->
  window_ok W = true ∧ loader_ok W = true
  ∧ exists q, p = init_calls ++ [glfwMakeContextCurrent; gladLoadGLLoader] ++ q.
Proof.
  intros Hcalls Hc.
  destruct (window_ok W) eqn:Hw; [destruct (loader_ok W) eqn:Hl|].
  - split; [done|]. split; [done|].
    rewrite main_run in Hcalls by done. cbn [snd calls] in Hcalls.
    destruct (startup_calls_begin W) as [tail Htail].
    rewrite Htail, <- app_assoc in Hcalls. symmetry in Hcalls.
    destruct (split_after_prefix is_gl _ _ _ _ _ Hcalls Hc init_calls_not_gl)
      as [q ->].
    exists q. by rewrite <- app_assoc.
  - rewrite no_loader_run in Hcalls by done. cbn [snd calls] in Hcalls.
    assert (c ∈ init_calls ++ [glfwMakeContextCurrent; gladLoadGLLoader])
      as Hin by (rewrite Hcalls, elem_of_app, elem_of_cons; tauto).
    apply (filter_nil_not_elem is_gl) in Hin; [congruence|reflexivity].
  - rewrite no_window_run in Hcalls by done. cbn [snd calls] in Hcalls.
    assert (c ∈ init_calls)
      as Hin by (rewrite Hcalls, elem_of_app, elem_of_cons; tauto).
    apply (filter_nil_not_elem is_gl) in Hin; [congruence|reflexivity].
Qed.

Lemma no_gl_call_before_loader_witness :
  window_ok demo_world = true ∧ loader_ok demo_world = true
  ∧ exists q,
      init_calls ++ [glfwMakeContextCurrent; gladLoadGLLoader]
      = init_calls ++ [glfwMakeContextCurrent; gladLoadGLLoader] ++ q.
Proof.
  apply (no_gl_call_before_loader demo_world 0
           (init_calls ++ [glfwMakeContextCurrent; gladLoadGLLoader])
           (glCreateShader GL_VERTEX_SHADER)
           (skipn 8 (calls (main demo_world 0 start).2))).
  - vm_compute. reflexivity.
  - reflexivity.
Defined.

(** *** How much of a log is printed *)

Lemma length_append (s1 s2 : string) :
  String.length (s1 +:+ s2) = (String.length s1 + String.length s2)%nat.
Proof.
  induction s1 as [|c s1 IH]; [done|].
  change (S (String.length (s1 +:+ s2))
          = S (String.length s1 + String.length s2)). by rewrite IH.
Qed.

Lemma truncate_short (n : nat) (s : string) :
  (String.length s ≤ n)%nat -> truncate n s = s.
Proof.
  unfold truncate. revert s.
  induction n as [|n IH]; intros [|c s] H; simpl in *; try done; try lia.
  rewrite IH; [done|lia].
Qed.

Lemma truncate_long (n : nat) (s : string) :
  (n ≤ String.length s)%nat ->
  String.length (truncate n s) = n
  ∧ ∃ rest, s = truncate n s +:+ rest.
Proof.
  unfold truncate. revert s.
  induction n as [|n IH]; intros s H.
  - split; [by destruct s|]. exists s. by destruct s.
  - destruct s as [|c s]; simpl in H; [lia|].
    destruct (IH s) as (Hlen & rest & Hrest); [lia|].
    split; [simpl; by rewrite Hlen|].
    exists rest. simpl.
    change (String c s = String c (String.substring 0 n s +:+ rest)).
    by rewrite <- Hrest.
Qed.

(** X3.  A failed check prints the whole log when the log has at most 511
    characters, and exactly its first 511 characters when it is longer:
    the 512-byte buffer loses nothing of a log that fits it with its
    terminator.  The same holds of [checkCompile] and of [checkLink]. *)
Theorem failed_check_prints_whole_short_log W st :
  (∀ shader,
     compiled (machine st) shader = false ->
     let log := shader_log (machine st) shader in
     let printed := stdout (checkCompile W shader st).2 in
     ((String.length log ≤ 511)%nat ->
      printed = stdout st +:+ "Shader compilation error:" +:+ endl
                +:+ log +:+ endl)
     ∧ ((511 < String.length log)%nat ->
        ∃ text rest,
          log = text +:+ rest ∧ String.length text = 511%nat
          ∧ printed = stdout st +:+ "Shader compilation error:" +:+ endl
                      +:+ text +:+ endl))
  ∧ (∀ program,
       linked (machine st) program = false ->
       let log := program_log (machine st) program in
       let printed := stdout (checkLink W program st).2 in
       ((String.length log ≤ 511)%nat ->
        printed = stdout st +:+ "Program linking error:" +:+ endl
                  +:+ log +:+ endl)
       ∧ ((511 < String.length log)%nat ->
          ∃ text rest,
            log = text +:+ rest ∧ String.length text = 511%nat
            ∧ printed = stdout st +:+ "Program linking error:" +:+ endl
                        +:+ text +:+ endl)).
Proof.
  destruct st as [m cs out]. split.
  - intros shader Hc. cbn zeta. rewrite checkCompile_run.
    cbn [snd stdout machine] in *. rewrite Hc. unfold diagnostic. split.
    + intros Hlen. by rewrite truncate_short.
    + intros Hlen.
      destruct (truncate_long 511 (shader_log m shader)) as (H1 & rest & H2);
        [lia|].
      by exists (truncate 511 (shader_log m shader)), rest.
  - intros program Hc. cbn zeta. rewrite checkLink_run.
    cbn [snd stdout machine] in *. rewrite Hc. unfold diagnostic. split.
    + intros Hlen. by rewrite truncate_short.
    + intros Hlen.
      destruct (truncate_long 511 (program_log m program)) as (H1 & rest & H2);
        [lia|].
      by exists (truncate 511 (program_log m program)), rest.
Qed.

Lemma failed_check_prints_whole_short_log_witness :
  stdout
    (checkCompile broken_world 1
       {| machine :=
            replay broken_world
              [glCreateShader GL_FRAGMENT_SHADER;
               glShaderSource 1 normalFragSource; glCompileShader 1] boot;
          calls := [glCreateShader GL_FRAGMENT_SHADER;
                    glShaderSource 1 normalFragSource; glCompileShader 1];
          stdout := "" |}).2
  = "" +:+ "Shader compilation error:" +:+ endl
    +:+ "0:1(1): error: syntax error" +:+ endl.
Proof.
  refine (proj1 (proj1 (failed_check_prints_whole_short_log broken_world
    {| machine :=
         replay broken_world
           [glCreateShader GL_FRAGMENT_SHADER;
            glShaderSource 1 normalFragSource; glCompileShader 1] boot;
       calls := [glCreateShader GL_FRAGMENT_SHADER;
                 glShaderSource 1 normalFragSource; glCompileShader 1];
       stdout := "" |}) 1%N _) _).
  - vm_compute. reflexivity.
  - vm_compute. lia.
Defined.

(** *** How much a run prints *)

Lemma diagnostic_length caption log :
  (String.length (diagnostic caption log)
   ≤ String.length caption + 513)%nat.
Proof.
  unfold diagnostic. rewrite !length_append.
  pose proof (truncate_length 511 log).
  change (String.length endl) with 1%nat. lia.
Qed.

(** X4.  What a run prints is bounded whatever the compiler and the linker
    put into their logs: at most three compile diagnostics of 26 + 512
    characters and two link diagnostics of 23 + 512, 2684 characters in
    all; a run that returns -1 prints fewer than 30. *)
Theorem printed_output_bounded W fuel :
  (String.length (stdout (main W fuel start).2) ≤ 2684)%nat
  ∧ ((main W fuel start).1 = Some (-1) ->
     (String.length (stdout (main W fuel start).2) < 30)%nat).
Proof.
  destruct (window_ok W) eqn:Hw; [destruct (loader_ok W) eqn:Hl|].
  - rewrite main_run by done. cbn [fst snd stdout].
    split; [|by destruct (leaves W fuel 0)].
    unfold startup_output, compile_output, link_output.
    rewrite !length_append.
    pose proof (diagnostic_length "Shader compilation error:"
                  (compile_log W GL_VERTEX_SHADER vertexShaderSource)).
    pose proof (diagnostic_length "Shader compilation error:"
                  (compile_log W GL_FRAGMENT_SHADER normalFragSource)).
    pose proof (diagnostic_length "Shader compilation error:"
                  (compile_log W GL_FRAGMENT_SHADER waveFragSource)).
    pose proof (diagnostic_length "Program linking error:"
                  (link_log W (flat_stages W))).
    pose proof (diagnostic_length "Program linking error:"
                  (link_log W (wave_stages W))).
    change (String.length "Shader compilation error:") with 25%nat in *.
    change (String.length "Program linking error:") with 22%nat in *.
    split_bools; change (String.length "") with 0%nat; lia.
  - rewrite no_loader_run by done. cbn [fst snd stdout].
    split; [|intros _]; vm_compute; lia.
  - rewrite no_window_run by done. cbn [fst snd stdout].
    split; [|intros _]; vm_compute; lia.
Qed.

Lemma printed_output_bounded_witness :
  (String.length (stdout (main headless_world 3 start).2) < 30)%nat.
Proof.
  apply (proj2 (printed_output_bounded headless_world 3)).
  reflexivity.
Defined.

(** *** One iteration on any machine *)












(** *** The two programs *)

(** X6.  While the loop runs, the two programs are the only ones there are.
    Both were given the same vertex shader object and each its own fragment
    shader object; the linker was asked about the vertex source of the file
    with the flat, respectively the wave, fragment source of the file, each
    with the status its compilation had; a program has the executable of
    its fragment source exactly when the linker accepted it, and the flat
    program never holds a uniform value.  The three shaders were handed to
    [glDeleteShader] at startup, but they are attached to the programs:
    they are flagged for deletion and still there, with their sources, as
    long as the programs are. *)
Theorem programs_share_vertex_stage W fuel :
  window_ok W = true -> loader_ok W = true ->
  (main W fuel start).1 = None ->
  let m := machine (main W fuel start).2 in
  let compiled_as type source := (type, source, compile_ok W type source) in
  (∀ p, is_Some (programs m !! p)
        <-> p = normalShader handles ∨ p = waveShader handles)
  ∧ ∃ flat wave v f1 f2,
      programs m !! normalShader handles = Some flat
      ∧ programs m !! waveShader handles = Some wave
      ∧ pg_attached flat = [v; f1] ∧ pg_attached wave = [v; f2] ∧ f1 ≠ f2
      ∧ pg_linked flat
        = link_ok W [compiled_as GL_VERTEX_SHADER vertexShaderSource;
                     compiled_as GL_FRAGMENT_SHADER normalFragSource]
      ∧ pg_linked wave
        = link_ok W [compiled_as GL_VERTEX_SHADER vertexShaderSource;
                     compiled_as GL_FRAGMENT_SHADER waveFragSource]
      ∧ pg_fragment flat
        = (if pg_linked flat then Some normalFragSource else None)
      ∧ pg_fragment wave
        = (if pg_linked wave then Some waveFragSource else None)
      ∧ pg_uniforms flat = ∅
      ∧ flagged m = [(KShader, v); (KShader, f1); (KShader, f2)]
      ∧ (sh_source <$> shaders m !! v) = Some vertexShaderSource
      ∧ (sh_source <$> shaders m !! f1) = Some normalFragSource
      ∧ (sh_source <$> shaders m !! f2) = Some waveFragSource
      ∧ Forall (λ o, in_use o m = true) (flagged m)
      ∧ Forall (λ o, o ∈ released m) (flagged m).
Proof.
  intros Hw Hl Hres. rewrite main_run in * by done.
  cbn [fst snd machine] in *.
  destruct (leaves W fuel 0); [done|]. cbn zeta.
  set (n := iterations W fuel 0). clearbody n.
  split.
  - intros p. unfold loop_machine, programs_after. cbn [programs].
    change (normalShader handles) with 4%N.
    change (waveShader handles) with 5%N.
    destruct (decide (p = 5%N)) as [->|H5].
    { rewrite lookup_insert_eq. split; [tauto|by eexists]. }
    rewrite lookup_insert_ne by done.
    destruct (decide (p = 4%N)) as [->|H4].
    { rewrite lookup_insert_eq. split; [tauto|by eexists]. }
    rewrite lookup_insert_ne, lookup_empty by done.
    split; [by intros [? ?]|tauto].
  - exists (flat_program W), (wave_program W (uniforms_after W n)).
    exists vertexShader, normalFrag, waveFrag.
    do 10 (split; [done|]).
    split; [done|]. split; [done|]. split; [done|]. split; [done|].
    split.
    + repeat constructor; vm_compute; reflexivity.
    + repeat constructor; apply list_elem_of_In; simpl; tauto.
Qed.

Lemma programs_share_vertex_stage_witness :
  is_Some (programs (machine (main demo_world 1 start).2)
             !! waveShader handles).
Proof.
  apply (proj1 (programs_share_vertex_stage demo_world 1
                  eq_refl eq_refl eq_refl) (waveShader handles)).
  by right.
Defined.

(** *** The colour of the second quad *)







(** *** A program that did not link *)










(** *** Where the quads are *)

Lemma loop_vertex_inputs W k i px py pz tx ty :
  attribute_at (buffers (loop_machine W k)) geometry_array 0 i
  = Some [px; py; pz] ->
  attribute_at (buffers (loop_machine W k)) geometry_array 1 i
  = Some [tx; ty] ->
  vertex_inputs (buffers (loop_machine W k)) geometry_array i
  = Some (GLSL.Vec3 px py pz, GLSL.Vec2 tx ty).
Proof. intros H0 H1. unfold vertex_inputs. by rewrite H0, H1. Qed.

Lemma between_finite (lo hi q : Q) :
  Qle_bool lo q = true -> Qle_bool q hi = true ->
  Binary32.between lo hi (Binary32.Finite q).
Proof.
  intros H1 H2. exists q. split; [done|].
  split; by apply Qle_bool_imp_le.
Qed.

(** X12.  While the loop runs, every index of the index buffer names a
    vertex that the vertex array feeds to the vertex stage, and the stage
    hands the texture coordinate on unchanged and places the vertex at
    depth 0 with [w = 1].  The texture coordinate spans each quad from its
    left edge (0) to its right edge (1) and from its bottom (0) to its top
    (1).  The buffer holds the literals of the source as [float]s: 0, 0.5
    and 1 are kept exactly, while [0.9f] is 7549747/8388608, a little
    below 0.9.  The vertices of the first draw are the corners of the
    rectangle from (-0.9f, 0) to (-0.5, 0.5), those of the second draw the
    corners of the rectangle from (0.5, 0) to (0.9f, 0.5), so that both
    quads are inside the clip volume and do not meet. *)
Theorem quads_span_texture_coordinates W fuel i :
  window_ok W = true -> loader_ok W = true ->
  (main W fuel start).1 = None ->
  i ∈ indices ->
  let m := machine (main W fuel start).2 in
  let left_edge := Binary32.Finite (-7549747 # 8388608) in
  let right_edge := Binary32.Finite (7549747 # 8388608) in
  (literal (-0.9) = left_edge ∧ literal 0.9 = right_edge
   ∧ (-0.9 < -7549747 # 8388608)%Q ∧ (7549747 # 8388608 < 0.9)%Q)
  ∧ ∃ va aPos aTexCoord,
    arrays m !! VAO handles = Some va
    ∧ vertex_inputs (buffers m) va i = Some (aPos, aTexCoord)
    ∧ let out := GLSL.vertexShader_main aPos aTexCoord in
      let pos := GLSL.gl_Position out in
      let tc := GLSL.TexCoord out in
      tc = aTexCoord
      ∧ GLSL.b pos = Binary32.Finite 0 ∧ GLSL.a pos = Binary32.Finite 1
      ∧ (GLSL.y tc = Binary32.Finite 0 ∧ GLSL.g pos = Binary32.Finite 0
         ∨ GLSL.y tc = Binary32.Finite 1
           ∧ GLSL.g pos = Binary32.Finite (1 # 2))
      ∧ (i ∈ take 6 indices ->
         GLSL.x tc = Binary32.Finite 0 ∧ GLSL.r pos = left_edge
         ∨ GLSL.x tc = Binary32.Finite 1
           ∧ GLSL.r pos = Binary32.Finite (-1 # 2))
      ∧ (i ∈ drop 6 indices ->
         GLSL.x tc = Binary32.Finite 0
         ∧ GLSL.r pos = Binary32.Finite (1 # 2)
         ∨ GLSL.x tc = Binary32.Finite 1 ∧ GLSL.r pos = right_edge)
      ∧ Binary32.between (-1) 1 (GLSL.r pos)
      ∧ Binary32.between (-1) 1 (GLSL.g pos).
Proof.
  intros Hw Hl Hres Hi. rewrite main_run in * by done.
  cbn [fst snd machine] in *.
  destruct (leaves W fuel 0); [done|]. cbn zeta.
  set (n := iterations W fuel 0). clearbody n.
  split.
  { split; [by vm_compute|]. split; [by vm_compute|].
    split; reflexivity. }
  exists geometry_array.
  assert (∀ j, j ∈ take 6 indices -> (j < 4)%N) as Hfirst.
  { intros j Hj. apply list_elem_of_In in Hj. simpl in Hj. lia. }
  assert (∀ j, j ∈ drop 6 indices -> (4 ≤ j)%N) as Hsecond.
  { intros j Hj. apply list_elem_of_In in Hj. simpl in Hj. lia. }
  assert (i = 0 ∨ i = 1 ∨ i = 2 ∨ i = 3 ∨ i = 4 ∨ i = 5 ∨ i = 6 ∨ i = 7)%N
    as Hcases.
  { apply list_elem_of_In in Hi. simpl in Hi. lia. }
  destruct Hcases as [->|[->|[->|[->|[->|[->|[->| ->]]]]]]].
  all: eexists _, _; split; [reflexivity|].
  all: split;
    [apply loop_vertex_inputs; vm_compute; reflexivity|].
  all: unfold GLSL.vertexShader_main;
    cbn [GLSL.gl_Position GLSL.TexCoord GLSL.px GLSL.py GLSL.pz
         GLSL.r GLSL.g GLSL.b GLSL.a GLSL.x GLSL.y].
  all: split; [reflexivity|].
  all: split; [reflexivity|]. all: split; [by vm_compute|].
  all: split; [first [by left | by right]|].
  all: split;
    [first [intros Hj; apply Hfirst in Hj; lia
           | intros _; by left | intros _; by right]|].
  all: split;
    [first [intros Hj; apply Hsecond in Hj; lia
           | intros _; by left | intros _; by right]|].
  all: split; by apply between_finite.
Qed.

Lemma quads_span_texture_coordinates_witness :
  ∃ va aPos aTexCoord,
    arrays (machine (main demo_world 1 start).2) !! VAO handles = Some va
    ∧ vertex_inputs (buffers (machine (main demo_world 1 start).2)) va 6
      = Some (aPos, aTexCoord)
    ∧ GLSL.TexCoord (GLSL.vertexShader_main aPos aTexCoord) = aTexCoord.
Proof.
  destruct (quads_span_texture_coordinates demo_world 1 6)
    as (_ & va & aPos & aTexCoord & H1 & H2 & H3 & _).
  - reflexivity.
  - reflexivity.
  - reflexivity.
  - apply list_elem_of_In. simpl. tauto.
  - exists va, aPos, aTexCoord. repeat split; assumption.
Defined.

(** *** The names the calls pass *)








